(** * tqec: basis-normalising circuit pass and the base block/substitution builders

    A shallow embedding of
    - [tqec/plaquette/compilation/passes/basis_change.py] ([ChangeBasisPass]),
    - [tqec/compile/specs/library/base.py] ([BaseBlockBuilder],
      [BaseSubstitutionBuilder]),
    together with the properties the specification states about them.

    Python exceptions are values of [Exception]; a function that may raise
    returns a [result].  Code of the repository that the two files import but
    that is not part of the sources at hand (the stim helpers, the template
    library, the plaquette compiler) is an interface: a type class whose
    fields are the imported functions.  A stim circuit is the list of its
    instructions; what stim does when the pass appends to a circuit (it
    checks the targets, stores the canonical name of the gate and merges the
    instruction into the last one when it can) is written out in [append]. *)

From stdpp Require Import base option list gmap strings.
From Stdlib Require Import ZArith QArith.

Local Open Scope string_scope.
Local Open Scope Z_scope.
Local Open Scope list_scope.

(** ** Exceptions and results *)

Inductive Exception : Type :=
  | TQECException (msg : string)
  | NotImplementedError (msg : string)
  | AssertionError
  | KeyError (key : Z)
  | ValueError.

Inductive result (A : Type) : Type :=
  | Ok (a : A)
  | Raise (e : Exception).
Arguments Ok {A} a.
Arguments Raise {A} e.

#[global] Instance result_ret : MRet result := fun _ a => Ok a.
#[global] Instance result_bind : MBind result := fun _ _ f m =>
  match m with
  | Ok a => f a
  | Raise e => Raise e
  end.

(** [assert cond] of Python: raises [AssertionError] when [cond] is false. *)
Definition assert (cond : bool) : result unit :=
  if cond then Ok tt else Raise AssertionError.

(** A [for] loop whose body may raise, threading the loop state. *)
Fixpoint for_each {S A : Type} (body : S → A → result S) (l : list A) (s : S)
  : result S :=
  match l with
  | [] => Ok s
  | a :: l' => s' ← body s a; for_each body l' s'
  end.

Definition raises {A : Type} (r : result A) : Prop := ∃ e, r = Raise e.

(** [tqec/enums.py] *)
Module Basis.
Inductive t : Type := X | Z.
#[global] Instance eq_dec : EqDecision t.
Proof. solve_decision. Defined.
(** [basis.value] *)
Definition value (b : t) : string :=
  match b with X => "X" | Z => "Z" end.
End Basis.

(** * The basis-change pass *)
Module BasisChange.

(** ** Circuits of the backend *)

(** A target of a stim instruction ([stim.GateTarget]): a qubit [q], an
    inverted qubit [!q] of a measurement, or a target of another kind
    (measurement record, sweep bit, Pauli), which is not a qubit target. *)
Record GateTarget : Type := mkGateTarget {
  value : Z;
  is_qubit_target : bool;
  is_inverted_result_target : bool;
}.

#[global] Instance GateTarget_eq_dec : EqDecision GateTarget.
Proof. solve_decision. Defined.

(** The targets [q] and [!q]. *)
Definition qubit (q : Z) : GateTarget := mkGateTarget q true false.
Definition inverted (q : Z) : GateTarget := mkGateTarget q true true.

#[global] Instance Q_eq_dec : EqDecision Q.
Proof. solve_decision. Defined.

(** A stim instruction: the name of its gate, its targets and its numeric
    arguments.  [TICK] is the instruction named ["TICK"] without targets.
    Instructions carry no tag: the pass reads none and appends none. *)
Record CircuitInstruction : Type := mkInstruction {
  name : string;
  targets_copy : list GateTarget;
  gate_args_copy : list Q;
}.

#[global] Instance CircuitInstruction_eq_dec : EqDecision CircuitInstruction.
Proof. solve_decision. Defined.

(** A [stim.Circuit] free of [REPEAT] blocks, as the sequence of its
    instructions; a circuit is truthy when it has at least one instruction,
    and [+=] concatenates. *)
Abbreviation Circuit := (list CircuitInstruction).

Definition circuit_bool (c : Circuit) : bool :=
  match c with [] => false | _ => true end.

Definition TICK : CircuitInstruction := mkInstruction "TICK" [] [].

(** stim stores an instruction under the canonical name of its gate.  Of
    the names the pass appends ([H], [TICK] and the four instruction names of
    the bases) two are aliases: [MZ] of [M] and [RZ] of [R]. *)
Definition canonical_name (nm : string) : string :=
  if (nm =? "MZ")%string then "M"
  else if (nm =? "RZ")%string then "R"
  else nm.

(** What the pass relies on in stim, the external circuit backend: which
    gates stim merges when the same gate is appended twice in a row, and
    which targets and arguments it accepts for a gate.  [TICK] is never
    merged and is accepted without targets and arguments. *)
Class StimGates : Type := {
  is_fusable : string → bool;
  accepts : string → list GateTarget → list Q → bool;
  TICK_not_fusable : is_fusable "TICK" = false;
  TICK_accepted : accepts "TICK" [] [] = true;
}.

Section Stim.
Context `{StimGates}.

(** stim merges an appended instruction into the last instruction of the
    circuit when both are of the same mergeable gate with the same
    arguments: the targets of the appended instruction are added to the
    last instruction. *)
Definition can_fuse (last_instruction instruction : CircuitInstruction) : bool :=
  is_fusable (name last_instruction)
  && bool_decide (name last_instruction = name instruction)
  && bool_decide (gate_args_copy last_instruction = gate_args_copy instruction).

Definition fused (last_instruction instruction : CircuitInstruction)
  : CircuitInstruction :=
  mkInstruction (name last_instruction)
                (targets_copy last_instruction ++ targets_copy instruction)
                (gate_args_copy last_instruction).

(** [circuit.append(instruction)], of an instruction of a circuit. *)
Fixpoint append_instruction (c : Circuit) (instruction : CircuitInstruction)
  : Circuit :=
  match c with
  | [] => [instruction]
  | [last_instruction] =>
      if can_fuse last_instruction instruction
      then [fused last_instruction instruction]
      else [last_instruction; instruction]
  | first :: c' => first :: append_instruction c' instruction
  end.

(** [circuit.append(name, targets, args)]: stim raises [ValueError] when the
    gate does not accept the targets or the arguments. *)
Definition append (c : Circuit) (nm : string) (targets : list GateTarget)
    (args : list Q) : result Circuit :=
  if accepts nm targets args
  then Ok (append_instruction c (mkInstruction (canonical_name nm) targets args))
  else Raise ValueError.

End Stim.

(** ** Moments *)

(** Qubits touched by a circuit (what a [Moment] caches as [qubits_indices]
    when [used_qubits] is not given). *)
Definition count_qubits (c : Circuit) : list Z :=
  remove_dups (value <$> filter (λ t, is_qubit_target t = true) (c ≫= targets_copy)).

Record Moment : Type := mkMoment {
  circuit : Circuit;
  qubits_indices : list Z;
}.

(** [Moment(circuit, used_qubits=..., _avoid_checks=True)] *)
Definition new_Moment (c : Circuit) (used_qubits : option (list Z)) : Moment :=
  mkMoment c (default (count_qubits c) used_qubits).

(** [moment.instructions] *)
Definition instructions (m : Moment) : list CircuitInstruction := circuit m.

(** ** The pass *)

(** [tqec.plaquette.enums] *)
Inductive ResetBasis : Type := ResetBasis_X | ResetBasis_Z.
Inductive MeasurementBasis : Type := MeasurementBasis_X | MeasurementBasis_Z.

#[global] Instance ResetBasis_eq_dec : EqDecision ResetBasis.
Proof. solve_decision. Defined.
#[global] Instance MeasurementBasis_eq_dec : EqDecision MeasurementBasis.
Proof. solve_decision. Defined.

(** The union type [ResetBasis | MeasurementBasis]. *)
Inductive PassBasis : Type :=
  | Reset (b : ResetBasis)
  | Measurement (b : MeasurementBasis).

#[global] Instance PassBasis_eq_dec : EqDecision PassBasis.
Proof. solve_decision. Defined.

(** Modelled from the spec: the [instruction_name] property of the two basis
    enumerations of [tqec.plaquette.enums], which is not among the sources:
    the name of the reset (measurement) instruction of that basis, as in the
    sibling pass of [measurement_basis.py], which builds the name as
    [M] followed by the basis letter. *)
Definition instruction_name (b : PassBasis) : string :=
  match b with
  | Reset ResetBasis_X => "RX"
  | Reset ResetBasis_Z => "RZ"
  | Measurement MeasurementBasis_X => "MX"
  | Measurement MeasurementBasis_Z => "MZ"
  end.

(** The helpers imported from [tqec.circuit.instructions],
    [tqec.circuit.moment] and the base class of the pass.  The moment
    iterator is a generator: it is given by the moments it yields and by the
    exception that ends it, if one does. *)
Class CircuitHelpers : Type := {
  is_measurement_instruction : CircuitInstruction → bool;
  is_reset_instruction : CircuitInstruction → bool;
  is_combined_reset_and_measurement_instruction : CircuitInstruction → bool;
  iter_stim_circuit_without_repeat_by_moments :
    Circuit → list Moment * option Exception;
  check_flows : Circuit → Circuit → result unit;
}.

Section Pass.
Context `{StimGates} `{CircuitHelpers}.

(** The pass is constructed with [basis]. *)
Definition change_reset_basis (basis : PassBasis) : bool :=
  match basis with Reset _ => true | Measurement _ => false end.

Definition change_measurement_basis (basis : PassBasis) : bool :=
  match basis with Measurement _ => true | Reset _ => false end.

Definition may_have_to_change (basis : PassBasis)
    (instruction : CircuitInstruction) : bool :=
  if change_measurement_basis basis
  then is_measurement_instruction instruction
  else is_reset_instruction instruction.

Definition unsupported_message (nm : string) : string :=
  "Found a " +:+ nm +:+ " instruction, that is not supported.".

Definition combined_message (nm : string) : string :=
  "Combined reset and measurement instructions are not supported. Found "
    +:+ nm +:+ ".".

Definition _get_instruction_basis (instruction : CircuitInstruction)
  : result PassBasis :=
  let nm := name instruction in
  if (nm =? "M")%string || (nm =? "MZ")%string
  then Ok (Measurement MeasurementBasis_Z)
  else if (nm =? "MX")%string then Ok (Measurement MeasurementBasis_X)
  else if (nm =? "R")%string || (nm =? "RZ")%string
  then Ok (Reset ResetBasis_Z)
  else if (nm =? "RX")%string then Ok (Reset ResetBasis_X)
  else Raise (TQECException (unsupported_message nm)).

(** Body of the inner loop of [_with_basis_changed]; the state is the pair
    [(current_moment, basis_change_moment)]. *)
Definition instruction_step (basis : PassBasis)
    (st : Circuit * Circuit) (instruction : CircuitInstruction)
  : result (Circuit * Circuit) :=
  let '(current_moment, basis_change_moment) := st in
  if negb (may_have_to_change basis instruction)
  then Ok (append_instruction current_moment instruction, basis_change_moment)
  else if is_combined_reset_and_measurement_instruction instruction
  then Raise (TQECException (combined_message (name instruction)))
  else
    current_measurement_basis ← _get_instruction_basis instruction;
    if decide (current_measurement_basis = basis)
    then Ok (append_instruction current_moment instruction, basis_change_moment)
    else
      basis_change_moment ←
        append basis_change_moment "H" (targets_copy instruction) [];
      current_moment ←
        append current_moment (instruction_name basis)
               (targets_copy instruction) (gate_args_copy instruction);
      Ok (current_moment, basis_change_moment).

(** Body of the outer loop; the state is [ret_moments]. *)
Definition moment_step (basis : PassBasis)
    (ret_moments : list Moment) (moment : Moment) : result (list Moment) :=
  '(current_moment, basis_change_moment) ←
    for_each (instruction_step basis) (instructions moment) ([], []);
  let ret_moments :=
    if circuit_bool basis_change_moment && change_measurement_basis basis
    then ret_moments ++ [new_Moment basis_change_moment None]
    else ret_moments in
  let ret_moments :=
    ret_moments ++ [new_Moment current_moment (Some (qubits_indices moment))] in
  let ret_moments :=
    if circuit_bool basis_change_moment && change_reset_basis basis
    then ret_moments ++ [new_Moment basis_change_moment None]
    else ret_moments in
  Ok ret_moments.

(** The final assembly: every moment but the last is followed by a [TICK].
    Each [+=] comes after a [TICK] or on the empty circuit, where stim has
    nothing to merge. *)
Definition assemble (ret_moments : list Moment) : result Circuit :=
  ret_circuit ←
    for_each (λ ret_circuit moment,
                append (ret_circuit ++ circuit moment) "TICK" [] [])
             (removelast ret_moments) [];
  match last ret_moments with
  | Some moment => Ok (ret_circuit ++ circuit moment)
  | None => Ok ret_circuit
  end.

Definition _with_basis_changed (basis : PassBasis) (circuit : Circuit)
  : result Circuit :=
  let '(moments, stopped) := iter_stim_circuit_without_repeat_by_moments circuit in
  ret_moments ← for_each (moment_step basis) moments [];
  match stopped with
  | Some e => Raise e
  | None => assemble ret_moments
  end.

Definition run (basis : PassBasis) (circuit : Circuit) (check_all_flows : bool)
  : result Circuit :=
  modified_circuit ← _with_basis_changed basis circuit;
  _ ← (if check_all_flows then check_flows circuit modified_circuit else Ok tt);
  Ok modified_circuit.

End Pass.

(** *** What the pass does to one instruction and to one moment *)
Section Rewriting.
Context `{StimGates} `{CircuitHelpers}.

(** The circuit stim builds when the instructions are appended one by one. *)
Definition fuse_all (l : list CircuitInstruction) : Circuit :=
  foldl append_instruction [] l.

(** The instruction is read in the basis [basis]. *)
Definition in_basis (basis : PassBasis) (i : CircuitInstruction) : bool :=
  match _get_instruction_basis i with
  | Ok b => bool_decide (b = basis)
  | Raise _ => false
  end.

(** The instruction is selected and its basis is not the target. *)
Definition needs_change (basis : PassBasis) (i : CircuitInstruction) : bool :=
  may_have_to_change basis i && negb (in_basis basis i).

Definition rewritten (basis : PassBasis) (i : CircuitInstruction)
  : CircuitInstruction :=
  if needs_change basis i
  then mkInstruction (canonical_name (instruction_name basis))
                     (targets_copy i) (gate_args_copy i)
  else i.

Definition hadamard_on (i : CircuitInstruction) : CircuitInstruction :=
  mkInstruction "H" (targets_copy i) [].

(** stim accepts what the pass appends for an instruction it renames: [H]
    on the targets of the instruction, and the instruction of the target
    basis on its targets with its arguments. *)
Definition change_accepted (basis : PassBasis) (i : CircuitInstruction) : bool :=
  accepts "H" (targets_copy i) []
  && accepts (instruction_name basis) (targets_copy i) (gate_args_copy i).

(** The pass can handle the instruction: when selected, it is not a
    combined reset and measurement, its name has a basis and, when that
    basis is not the target, stim accepts the change. *)
Definition supported (basis : PassBasis) (i : CircuitInstruction) : Prop :=
  may_have_to_change basis i = true →
  is_combined_reset_and_measurement_instruction i = false
  ∧ (∃ b, _get_instruction_basis i = Ok b)
  ∧ (needs_change basis i = true → change_accepted basis i = true).

(** The selected instruction already has the target basis. *)
Definition already_in_basis (basis : PassBasis) (i : CircuitInstruction) : Prop :=
  may_have_to_change basis i = true →
  is_combined_reset_and_measurement_instruction i = false
  ∧ _get_instruction_basis i = Ok basis.

(** The same two conditions as checks. *)
Definition supportedb (basis : PassBasis) (i : CircuitInstruction) : bool :=
  negb (may_have_to_change basis i)
  || (negb (is_combined_reset_and_measurement_instruction i)
      && match _get_instruction_basis i with Ok _ => true | Raise _ => false end
      && (negb (needs_change basis i) || change_accepted basis i)).

Definition already_in_basisb (basis : PassBasis) (i : CircuitInstruction) : bool :=
  negb (may_have_to_change basis i)
  || (negb (is_combined_reset_and_measurement_instruction i) && in_basis basis i).

Definition rewritten_moment (basis : PassBasis) (m : Moment) : Moment :=
  new_Moment (fuse_all (rewritten basis <$> instructions m))
             (Some (qubits_indices m)).

Definition hadamard_moment (basis : PassBasis) (m : Moment) : Moment :=
  new_Moment
    (fuse_all (hadamard_on
                 <$> filter (λ i, needs_change basis i = true) (instructions m)))
    None.

(** The moments that replace [m]: the Hadamard moment, when it is not
    empty, comes before the rewritten moment for a measurement target and
    after it for a reset target. *)
Definition expand (basis : PassBasis) (m : Moment) : list Moment :=
  if circuit_bool (circuit (hadamard_moment basis m))
  then
    if change_measurement_basis basis
    then [hadamard_moment basis m; rewritten_moment basis m]
    else [rewritten_moment basis m; hadamard_moment basis m]
  else [rewritten_moment basis m].

(** The placement in the words of the specification: before for a reset
    target, after for a measurement target. *)
Definition expand_as_specified (basis : PassBasis) (m : Moment) : list Moment :=
  if circuit_bool (circuit (hadamard_moment basis m))
  then
    if change_reset_basis basis
    then [hadamard_moment basis m; rewritten_moment basis m]
    else [rewritten_moment basis m; hadamard_moment basis m]
  else [rewritten_moment basis m].

(** Circuits separated by one [TICK]. *)
Fixpoint join_ticks (cs : list Circuit) : Circuit :=
  match cs with
  | [] => []
  | [c] => c
  | c :: cs' => c ++ TICK :: join_ticks cs'
  end.

(** The circuit [run] returns when nothing raises. *)
Definition rewritten_circuit (basis : PassBasis) (ms : list Moment) : Circuit :=
  join_ticks (circuit <$> (ms ≫= expand basis)).

Definition plain_names : list string := ["M"; "MZ"; "MX"; "R"; "RZ"; "RX"].

(** The two exceptions of the pass, and the exceptions [run] can raise
    through the pass: one of the two, or the [ValueError] of stim. *)
Definition not_supported_error (e : Exception) : Prop :=
  ∃ nm, e = TQECException (combined_message nm)
        ∨ e = TQECException (unsupported_message nm).

Definition pass_error (e : Exception) : Prop :=
  not_supported_error e ∨ e = ValueError.

(** No two consecutive instructions of the circuit can be merged: the form
    of every circuit that stim has built by appending. *)
Fixpoint merged (c : Circuit) : bool :=
  match c with
  | a :: (b :: _) as c' => negb (can_fuse a b) && merged c'
  | _ => true
  end.

End Rewriting.

(** *** A stand-in for stim and for the imported helpers *)

(** The instruction [nm] on one qubit, without arguments. *)
Definition on (nm : string) (q : Z) : CircuitInstruction :=
  mkInstruction nm [qubit q] [].

Definition name_in (names : list string) (i : CircuitInstruction) : bool :=
  bool_decide (name i ∈ names).

Definition plain_qubits (targets : list GateTarget) : bool :=
  forallb (λ t, is_qubit_target t && negb (is_inverted_result_target t)) targets.

(** stim's own rules for the gates the pass appends: annotations and [TICK]
    are not merged; [H] and the resets take plain qubits and no argument;
    the measurements take qubits, inverted or not, and at most one
    argument; [TICK] takes nothing.  This instance serves to run the pass on
    concrete circuits. *)
#[global, refine] Instance stim_gates : StimGates := {|
  is_fusable := λ nm,
    bool_decide (nm ∉ ["TICK"; "DETECTOR"; "OBSERVABLE_INCLUDE"; "QUBIT_COORDS";
                       "SHIFT_COORDS"]);
  accepts := λ nm targets args,
    if bool_decide (nm ∈ ["H"; "R"; "RX"; "RY"; "RZ"])
    then plain_qubits targets && bool_decide (args = [])
    else if bool_decide (nm ∈ ["M"; "MX"; "MY"; "MZ"])
    then forallb is_qubit_target targets && bool_decide (length args ≤ 1)%nat
    else if bool_decide (nm = "TICK")
    then bool_decide (targets = []) && bool_decide (args = [])
    else true;
|}.
Proof. all: reflexivity. Defined.

(** Moments of a circuit: a moment ends at every [TICK]; the instructions
    after the last [TICK] form the last moment when there are any. *)
Fixpoint moments_from (cur : Circuit) (c : Circuit) : list Moment :=
  match c with
  | [] => if circuit_bool cur then [new_Moment cur None] else []
  | i :: c' =>
      if (name i =? "TICK")%string
      then new_Moment cur None :: moments_from [] c'
      else moments_from (append_instruction cur i) c'
  end.

(** Modelled from the spec: the helpers of [tqec.circuit.instructions] and
    [tqec.circuit.moment] and the flow check of the base class of the pass
    are not among the sources.  This instance classifies instructions by
    their stim name, groups instructions into moments separated by the
    barrier marker, and lets the flow check pass; it serves to run the pass
    on concrete circuits. *)
#[global] Instance stim_helpers : CircuitHelpers := {|
  is_measurement_instruction :=
    name_in ["M"; "MX"; "MY"; "MZ"; "MR"; "MRX"; "MRY"; "MRZ"];
  is_reset_instruction :=
    name_in ["R"; "RX"; "RY"; "RZ"; "MR"; "MRX"; "MRY"; "MRZ"];
  is_combined_reset_and_measurement_instruction :=
    name_in ["MR"; "MRX"; "MRY"; "MRZ"];
  iter_stim_circuit_without_repeat_by_moments := λ c, (moments_from [] c, None);
  check_flows := λ _ _, Ok tt;
|}.

End BasisChange.

(** * The base builders *)

(** [tqec.position] *)
Module Direction3D.
Inductive t : Type := X | Y | Z.
End Direction3D.

(** [tqec.templates.enums] *)
Module ZObservableOrientation.
Inductive t : Type := HORIZONTAL | VERTICAL.
End ZObservableOrientation.

(** [tqec.templates.indices.enums] *)
Module TemplateBorder.
Inductive t : Type := LEFT | RIGHT | BOTTOM | TOP.
End TemplateBorder.

(** [tqec.compile.specs.enums]: a flag enumeration, that is a set of arms. *)
Module JunctionArms.
Record t : Type := mk { up : bool; right : bool; down : bool; left : bool }.
Definition NONE : t := mk false false false false.
Definition UP : t := mk true false false false.
Definition RIGHT : t := mk false true false false.
Definition DOWN : t := mk false false true false.
Definition LEFT : t := mk false false false true.
End JunctionArms.

Module Builders.

(** [tqec.computation.cube]: the kind of a cube is a [ZXCube] with one
    basis per axis, a [Port] or a [YCube]. *)
Inductive CubeKind : Type :=
  | ZXCube (x y z : Basis.t)
  | Port
  | YCube.

(** [kind.as_tuple()] of a [ZXCube] *)
Definition as_tuple (x y z : Basis.t) : Basis.t * Basis.t * Basis.t := (x, y, z).

(** Modelled from the spec: [PipeKind] of [tqec.computation.pipe] is not
    among the sources.  It holds, per axis, the boundary basis of the pipe,
    absent for the axis the pipe runs along, and a Hadamard flag; the
    direction is the axis without a basis; the pipe is temporal when its
    direction is Z and spatial otherwise. *)
Record PipeKind : Type := mkPipeKind {
  x : option Basis.t;
  y : option Basis.t;
  z : option Basis.t;
  has_hadamard : bool;
}.

Definition direction (k : PipeKind) : Direction3D.t :=
  match x k, y k with
  | None, _ => Direction3D.X
  | Some _, None => Direction3D.Y
  | Some _, Some _ => Direction3D.Z
  end.

Definition is_temporal (k : PipeKind) : bool :=
  match direction k with Direction3D.Z => true | _ => false end.

Definition is_spatial (k : PipeKind) : bool := negb (is_temporal k).

Definition flipped (b : Basis.t) : Basis.t :=
  match b with Basis.X => Basis.Z | Basis.Z => Basis.X end.

(** Modelled from the spec: the basis of the pipe along [d], at its head or,
    across a Hadamard, flipped at its tail. *)
Definition get_basis_along (k : PipeKind) (d : Direction3D.t) (at_head : bool)
  : option Basis.t :=
  let head :=
    match d with
    | Direction3D.X => x k
    | Direction3D.Y => y k
    | Direction3D.Z => z k
    end in
  if negb at_head && has_hadamard k then flipped <$> head else head.

(** Modelled from the spec: [CubeSpec] of [tqec.compile.specs.base], a cube
    kind with the junction arms around the cube. *)
Record CubeSpec : Type := mkCubeSpec {
  kind : CubeKind;
  junction_arms : JunctionArms.t;
}.

(** Modelled from the spec: [FrozenDefaultDict] of
    [tqec.plaquette.frozendefaultdict], a mapping from plaquette index to a
    value with a value for the missing indices. *)
Record FrozenDefaultDict (V : Type) : Type := mkFrozenDefaultDict {
  items : gmap Z V;
  default_value : option V;
}.
Arguments mkFrozenDefaultDict {V} items default_value.
Arguments items {V} _.
Arguments default_value {V} _.

Definition map_values {V W : Type} (f : V → W) (d : FrozenDefaultDict V)
  : FrozenDefaultDict W :=
  mkFrozenDefaultDict (f <$> items d) (f <$> default_value d).

(** [d.map_keys(f)], where [f] may raise on a key. *)
Definition map_keys {V : Type} (f : Z → result Z) (d : FrozenDefaultDict V)
  : result (FrozenDefaultDict V) :=
  new_items ← for_each (λ (acc : gmap Z V) (kv : Z * V),
                          k ← f kv.1; Ok (<[k := kv.2]> acc))
                       (map_to_list (items d)) ∅;
  Ok (mkFrozenDefaultDict new_items (default_value d)).

(** [mapping[i]] on a Python dictionary *)
Definition getitem (mapping : gmap Z Z) (i : Z) : result Z :=
  match mapping !! i with
  | Some j => Ok j
  | None => Raise (KeyError i)
  end.

(** Modelled from the spec: [border.to(other)], the positional zip of two
    ordered sequences of border indices. *)
Definition to (border other : list Z) : gmap Z Z :=
  list_to_map (zip border other).

(** [enumerate(l)] *)
Definition enumerate {A : Type} (l : list A) : list (Z * A) :=
  imap (λ i a, (Z.of_nat i, a)) l.

(** The template library, the translator and the compiler the builders
    import; [compile] is the compiler the builder is initialised with. *)
Class TemplateLibrary : Type := {
  RPNGDescription : Type;
  Plaquette : Type;
  RectangularTemplate : Type;
  is_spatial_junction : CubeSpec → bool;
  translate : RPNGDescription → Plaquette;
  compile : Plaquette → Plaquette;
  get_border_indices : RectangularTemplate → TemplateBorder.t → list Z;
  get_temporal_hadamard_rpng_descriptions :
    ZObservableOrientation.t → FrozenDefaultDict RPNGDescription;
  get_memory_qubit_raw_template : RectangularTemplate;
  get_memory_qubit_rpng_descriptions :
    ZObservableOrientation.t → option Basis.t → option Basis.t →
    FrozenDefaultDict RPNGDescription;
  get_memory_horizontal_boundary_raw_template : RectangularTemplate;
  get_memory_horizontal_boundary_rpng_descriptions :
    ZObservableOrientation.t → option Basis.t → option Basis.t →
    FrozenDefaultDict RPNGDescription;
  get_memory_vertical_boundary_raw_template : RectangularTemplate;
  get_memory_vertical_boundary_rpng_descriptions :
    ZObservableOrientation.t → option Basis.t → option Basis.t →
    FrozenDefaultDict RPNGDescription;
  get_spatial_junction_arm_raw_template : JunctionArms.t → RectangularTemplate;
  get_spatial_junction_qubit_raw_template : RectangularTemplate;
  get_spatial_junction_qubit_rpng_descriptions :
    Basis.t → JunctionArms.t → option Basis.t → option Basis.t →
    FrozenDefaultDict RPNGDescription;
}.

Section Types.
Context `{TemplateLibrary}.

(** [tqec.plaquette.plaquette] *)
Record Plaquettes : Type := mkPlaquettes {
  collection : FrozenDefaultDict Plaquette;
}.

(** [tqec.compile.block] *)
Record CompiledBlock : Type := mkCompiledBlock {
  template : RectangularTemplate;
  layers : list Plaquettes;
}.

(** [tqec.compile.specs.base] *)
Record Substitution : Type := mkSubstitution {
  src : gmap Z Plaquettes;
  dst : gmap Z Plaquettes;
}.

Record PipeSpec : Type := mkPipeSpec {
  cube_specs : CubeSpec * CubeSpec;
  cube_templates : RectangularTemplate * RectangularTemplate;
  pipe_kind : PipeKind;
}.
End Types.

End Builders.

(** ** [BaseBlockBuilder] *)
Module BaseBlockBuilder.
Import Builders.

Section Builder.
Context `{TemplateLibrary}.

Definition _get_template_and_plaquettes (spec : CubeSpec)
  : result (RectangularTemplate * list (FrozenDefaultDict RPNGDescription)) :=
  match kind spec with
  | ZXCube x y z =>
      let '(x, y, z) := as_tuple x y z in
      let resets_and_measurements :=
        [(Some z, None); (None, None); (None, Some z)] in
      if negb (is_spatial_junction spec)
      then
        let orientation :=
          if decide (x = Basis.Z)
          then ZObservableOrientation.HORIZONTAL
          else ZObservableOrientation.VERTICAL in
        Ok (get_memory_qubit_raw_template,
            (λ '(r, m), get_memory_qubit_rpng_descriptions orientation r m)
              <$> resets_and_measurements)
      else
        Ok (get_spatial_junction_qubit_raw_template,
            (λ '(r, m), get_spatial_junction_qubit_rpng_descriptions
                          x (junction_arms spec) r m)
              <$> resets_and_measurements)
  | _ => Raise AssertionError
  end.

Definition __call__ (spec : CubeSpec) : result CompiledBlock :=
  let kind := kind spec in
  match kind with
  | Port => Raise (TQECException "Cannot build a block for a Port.")
  | YCube => Raise (NotImplementedError "Y cube is not implemented.")
  | ZXCube _ _ _ =>
      '(template, mappings) ← _get_template_and_plaquettes spec;
      let plaquettes :=
        (λ mapping,
           mkPlaquettes (map_values (λ descr, compile (translate descr)) mapping))
          <$> mappings in
      Ok (mkCompiledBlock template plaquettes)
  end.

End Builder.
End BaseBlockBuilder.

(** ** [BaseSubstitutionBuilder] *)
Module BaseSubstitutionBuilder.
Import Builders.

Section Builder.
Context `{TemplateLibrary}.

Definition _get_plaquette (description : RPNGDescription) : Plaquette :=
  compile (translate description).

(** *** Temporal substitution *)

Definition _get_temporal_non_hadamard_pipe_substitution (spec : PipeSpec)
  : result Substitution :=
  _ ← assert (is_temporal (pipe_kind spec));
  _ ← assert (negb (has_hadamard (pipe_kind spec)));
  let z_observable_orientation :=
    if decide (x (pipe_kind spec) = Some Basis.Z)
    then ZObservableOrientation.HORIZONTAL
    else ZObservableOrientation.VERTICAL in
  let memory_descriptions :=
    get_memory_qubit_rpng_descriptions z_observable_orientation None None in
  let memory_plaquettes :=
    mkPlaquettes (map_values _get_plaquette memory_descriptions) in
  Ok (mkSubstitution {[ -1 := memory_plaquettes ]} {[ 0 := memory_plaquettes ]}).

Definition _get_temporal_hadamard_pipe_substitution (spec : PipeSpec)
  : result Substitution :=
  _ ← assert (is_temporal (pipe_kind spec));
  _ ← assert (has_hadamard (pipe_kind spec));
  match get_basis_along (pipe_kind spec) Direction3D.X true with
  | None =>
      Raise (TQECException
               "A temporal pipe should have a non-None basis on the X-axis.")
  | Some x_axis_basis_at_head =>
      let '(first_layer_orientation, second_layer_orientation) :=
        if decide (x_axis_basis_at_head = Basis.Z)
        then (ZObservableOrientation.HORIZONTAL, ZObservableOrientation.VERTICAL)
        else (ZObservableOrientation.VERTICAL, ZObservableOrientation.HORIZONTAL) in
      let hadamard_descriptions :=
        get_temporal_hadamard_rpng_descriptions first_layer_orientation in
      let hadamard_plaquettes :=
        mkPlaquettes (map_values _get_plaquette hadamard_descriptions) in
      let memory_descriptions :=
        get_memory_qubit_rpng_descriptions second_layer_orientation None None in
      let memory_plaquettes :=
        mkPlaquettes (map_values _get_plaquette memory_descriptions) in
      Ok (mkSubstitution {[ -1 := hadamard_plaquettes ]}
                         {[ 0 := memory_plaquettes ]})
  end.

Definition get_temporal_pipe_substitution (spec : PipeSpec)
  : result Substitution :=
  _ ← assert (is_temporal (pipe_kind spec));
  if has_hadamard (pipe_kind spec)
  then _get_temporal_hadamard_pipe_substitution spec
  else _get_temporal_non_hadamard_pipe_substitution spec.

(** *** Spatial substitution *)

Definition _get_plaquette_indices_mapping
    (qubit_templates : RectangularTemplate * RectangularTemplate)
    (pipe_template : RectangularTemplate) (direction : Direction3D.t)
  : result (gmap Z Z * gmap Z Z) :=
  '(tb1, tb2) ←
    match direction with
    | Direction3D.X => Ok (TemplateBorder.LEFT, TemplateBorder.RIGHT)
    | Direction3D.Y => Ok (TemplateBorder.BOTTOM, TemplateBorder.TOP)
    | Direction3D.Z =>
        Raise (TQECException "This method cannot be used with a temporal pipe.")
    end;
  Ok (to (get_border_indices pipe_template tb1)
         (get_border_indices qubit_templates.1 tb2),
      to (get_border_indices pipe_template tb2)
         (get_border_indices qubit_templates.2 tb1)).

Definition _get_spatial_junction_arm (spec : PipeSpec) : result JunctionArms.t :=
  let spatial_junction_is_first := is_spatial_junction (cube_specs spec).1 in
  match spatial_junction_is_first, direction (pipe_kind spec) with
  | true, Direction3D.X => Ok JunctionArms.RIGHT
  | false, Direction3D.X => Ok JunctionArms.LEFT
  | true, Direction3D.Y => Ok JunctionArms.UP
  | false, Direction3D.Y => Ok JunctionArms.DOWN
  | _, Direction3D.Z =>
      Raise (TQECException
        "Should never happen as we are in a spatial (i.e., X/Y plane) junction.")
  end.

(** Body of the loop over the three layers, shared by the two spatial
    builders: the state is [(src_substitution, dst_substitution)]. *)
Definition layer_step
    (descriptions : option Basis.t → option Basis.t →
                    FrozenDefaultDict RPNGDescription)
    (mappings : gmap Z Z * gmap Z Z)
    (st : gmap Z Plaquettes * gmap Z Plaquettes)
    (layer : Z * (option Basis.t * option Basis.t))
  : result (gmap Z Plaquettes * gmap Z Plaquettes) :=
  let '(src_substitution, dst_substitution) := st in
  let '(layer_index, (reset, measurement)) := layer in
  let rpng_descriptions := descriptions reset measurement in
  let plaquettes := map_values _get_plaquette rpng_descriptions in
  src_plaquettes ← map_keys (λ i, getitem mappings.1 i) plaquettes;
  let src_substitution :=
    <[layer_index := mkPlaquettes src_plaquettes]> src_substitution in
  dst_plaquettes ← map_keys (λ i, getitem mappings.2 i) plaquettes;
  let dst_substitution :=
    <[layer_index := mkPlaquettes dst_plaquettes]> dst_substitution in
  Ok (src_substitution, dst_substitution).

Definition _get_spatial_junction_pipe_substitution (spec : PipeSpec)
  : result Substitution :=
  _ ← assert (is_spatial (pipe_kind spec));
  _ ← assert (is_spatial_junction (cube_specs spec).1
              || is_spatial_junction (cube_specs spec).2);
  if is_spatial_junction (cube_specs spec).1
     && is_spatial_junction (cube_specs spec).2
  then Raise (TQECException
                "Found 2 spatial junctions connected. This is not supported yet.")
  else
    arm ← _get_spatial_junction_arm spec;
    let '(xbasis, ybasis) := (x (pipe_kind spec), y (pipe_kind spec)) in
    _ ← assert (bool_decide (xbasis ≠ None) || bool_decide (ybasis ≠ None));
    match (if xbasis is Some b then Some b else ybasis) with
    | None => Raise AssertionError
    | Some spatial_boundary_basis =>
        let pipe_template := get_spatial_junction_arm_raw_template arm in
        mappings ← _get_plaquette_indices_mapping
                     (cube_templates spec) pipe_template
                     (direction (pipe_kind spec));
        '(src_substitution, dst_substitution) ←
          for_each
            (layer_step
               (get_spatial_junction_qubit_rpng_descriptions
                  spatial_boundary_basis arm)
               mappings)
            (enumerate [(z (pipe_kind spec), None); (None, None);
                        (None, z (pipe_kind spec))])
            (∅, ∅);
        Ok (mkSubstitution src_substitution dst_substitution)
    end.

Definition _get_spatial_regular_pipe_substitution (spec : PipeSpec)
  : result Substitution :=
  _ ← assert (negb (is_spatial_junction (cube_specs spec).1)
              && negb (is_spatial_junction (cube_specs spec).2));
  '(mappings, description_factory, z_observable_orientation) ←
    match direction (pipe_kind spec) with
    | Direction3D.X =>
        let pipe_template := get_memory_vertical_boundary_raw_template in
        Ok (to (get_border_indices pipe_template TemplateBorder.LEFT)
               (get_border_indices (cube_templates spec).1 TemplateBorder.RIGHT),
            to (get_border_indices pipe_template TemplateBorder.RIGHT)
               (get_border_indices (cube_templates spec).2 TemplateBorder.LEFT),
            get_memory_vertical_boundary_rpng_descriptions,
            if decide (y (pipe_kind spec) = Some Basis.X)
            then ZObservableOrientation.HORIZONTAL
            else ZObservableOrientation.VERTICAL)
    | Direction3D.Y =>
        let pipe_template := get_memory_horizontal_boundary_raw_template in
        Ok (to (get_border_indices pipe_template TemplateBorder.BOTTOM)
               (get_border_indices (cube_templates spec).1 TemplateBorder.TOP),
            to (get_border_indices pipe_template TemplateBorder.TOP)
               (get_border_indices (cube_templates spec).2 TemplateBorder.BOTTOM),
            get_memory_horizontal_boundary_rpng_descriptions,
            if decide (x (pipe_kind spec) = Some Basis.Z)
            then ZObservableOrientation.HORIZONTAL
            else ZObservableOrientation.VERTICAL)
    | Direction3D.Z =>
        Raise (TQECException
                 "Spatial pipes cannot have a direction equal to Direction3D.Z.")
    end;
  '(src_substitution, dst_substitution) ←
    for_each
      (layer_step (description_factory z_observable_orientation) mappings)
      (enumerate [(z (pipe_kind spec), None); (None, None);
                  (None, z (pipe_kind spec))])
      (∅, ∅);
  Ok (mkSubstitution src_substitution dst_substitution).

Definition get_spatial_pipe_substitution (spec : PipeSpec) : result Substitution :=
  _ ← assert (is_spatial (pipe_kind spec));
  if is_spatial_junction (cube_specs spec).1
  then _get_spatial_junction_pipe_substitution spec
  else _get_spatial_regular_pipe_substitution spec.

Definition __call__ (spec : PipeSpec) : result Substitution :=
  if is_temporal (pipe_kind spec)
  then get_temporal_pipe_substitution spec
  else get_spatial_pipe_substitution spec.

(** *** The layers the substitutions are made of *)

(** The plaquette layer of a mapping of descriptions. *)
Definition layer_of (descriptions : FrozenDefaultDict RPNGDescription) : Plaquettes :=
  mkPlaquettes (map_values _get_plaquette descriptions).

(** The orientation of the Z observable for a basis on the X axis. *)
Definition orientation_of (b : Basis.t) : ZObservableOrientation.t :=
  match b with
  | Basis.Z => ZObservableOrientation.HORIZONTAL
  | Basis.X => ZObservableOrientation.VERTICAL
  end.

Definition rotated (o : ZObservableOrientation.t) : ZObservableOrientation.t :=
  match o with
  | ZObservableOrientation.HORIZONTAL => ZObservableOrientation.VERTICAL
  | ZObservableOrientation.VERTICAL => ZObservableOrientation.HORIZONTAL
  end.

End Builder.
End BaseSubstitutionBuilder.

(** ** A stand-in for the template library *)
Module SampleLibrary.
Import Builders.

#[global] Instance JunctionArms_eq_dec : EqDecision JunctionArms.t.
Proof. solve_decision. Defined.

Definition orientation_name (o : ZObservableOrientation.t) : string :=
  match o with
  | ZObservableOrientation.HORIZONTAL => "horizontal"
  | ZObservableOrientation.VERTICAL => "vertical"
  end.

Definition basis_name (b : option Basis.t) : string :=
  match b with Some b => Basis.value b | None => "-" end.

(** Descriptions for the plaquette indices 1 and 2, tagged with what they
    were asked for, and a background description for the other indices. *)
Definition descriptions (what : string) (reset measurement : option Basis.t)
  : FrozenDefaultDict string :=
  let tag := what +:+ " " +:+ basis_name reset +:+ basis_name measurement in
  mkFrozenDefaultDict {[ 1 := tag +:+ " first"; 2 := tag +:+ " second" ]}
                      (Some "background").

(** The template of a cube, given by the indices on its borders. *)
Definition cube_template (b : TemplateBorder.t) : list Z :=
  match b with
  | TemplateBorder.LEFT => [5; 6]
  | TemplateBorder.RIGHT => [7; 8]
  | TemplateBorder.BOTTOM => [9; 10]
  | TemplateBorder.TOP => [11; 12]
  end.

(** The template of a pipe, one plaquette wide: the same indices on
    opposite borders. *)
Definition pipe_template (b : TemplateBorder.t) : list Z := [1; 2].

(** Modelled from the spec: the template library, the RPNG translator, the
    plaquette compiler and the [is_spatial_junction] property of [CubeSpec]
    are not among the sources.  In this instance a template is the indices
    it exposes on each border, a description and a plaquette are strings,
    translation and compilation keep the description, and a cube is a
    spatial junction when it has a junction arm; it serves to run the
    builders on concrete specifications. *)
#[global] Instance sample_library : TemplateLibrary := {|
  RPNGDescription := string;
  Plaquette := string;
  RectangularTemplate := TemplateBorder.t → list Z;
  is_spatial_junction := λ spec,
    negb (bool_decide (junction_arms spec = JunctionArms.NONE));
  translate := λ d, d;
  compile := λ p, p;
  get_border_indices := λ t b, t b;
  get_temporal_hadamard_rpng_descriptions := λ o,
    descriptions ("hadamard " +:+ orientation_name o) None None;
  get_memory_qubit_raw_template := cube_template;
  get_memory_qubit_rpng_descriptions := λ o,
    descriptions ("memory " +:+ orientation_name o);
  get_memory_horizontal_boundary_raw_template := pipe_template;
  get_memory_horizontal_boundary_rpng_descriptions := λ o,
    descriptions ("horizontal boundary " +:+ orientation_name o);
  get_memory_vertical_boundary_raw_template := pipe_template;
  get_memory_vertical_boundary_rpng_descriptions := λ o,
    descriptions ("vertical boundary " +:+ orientation_name o);
  get_spatial_junction_arm_raw_template := λ _, pipe_template;
  get_spatial_junction_qubit_raw_template := cube_template;
  get_spatial_junction_qubit_rpng_descriptions := λ b _,
    descriptions ("junction " +:+ Basis.value b);
|}.

Definition regular_cube : CubeSpec :=
  mkCubeSpec (ZXCube Basis.Z Basis.X Basis.Z) JunctionArms.NONE.

Definition junction_cube : CubeSpec :=
  mkCubeSpec (ZXCube Basis.Z Basis.Z Basis.X)
             (JunctionArms.mk true true false false).

Definition pipe_between (first second : CubeSpec) (k : PipeKind) : PipeSpec :=
  mkPipeSpec (first, second) (cube_template, cube_template) k.

(** Pipe kinds ["ZXO"], ["ZXOH"], ["OXZ"] and ["ZOX"]. *)
Definition temporal_kind : PipeKind :=
  mkPipeKind (Some Basis.Z) (Some Basis.X) None false.
Definition temporal_hadamard_kind : PipeKind :=
  mkPipeKind (Some Basis.Z) (Some Basis.X) None true.
Definition x_kind : PipeKind :=
  mkPipeKind None (Some Basis.X) (Some Basis.Z) false.
Definition y_kind : PipeKind :=
  mkPipeKind (Some Basis.Z) None (Some Basis.X) false.

(** The template of a cube with a single index on each border, too short
    for the border of the pipe. *)
Definition narrow_cube_template (b : TemplateBorder.t) : list Z := [5].

Definition regular_x_pipe : PipeSpec := pipe_between regular_cube regular_cube x_kind.

Definition narrow_x_pipe : PipeSpec :=
  mkPipeSpec (regular_cube, regular_cube) (narrow_cube_template, cube_template) x_kind.

(** Pipe kinds ["XZO"] and ["ZZO"]. *)
Definition flipped_temporal_kind : PipeKind :=
  mkPipeKind (Some Basis.X) (Some Basis.Z) None false.
Definition other_temporal_kind : PipeKind :=
  mkPipeKind (Some Basis.Z) (Some Basis.Z) None false.

End SampleLibrary.


(** ** What the spatial builders are made of *)
Module SpatialPipes.
Import Builders BaseSubstitutionBuilder.

Section Parts.
Context `{TemplateLibrary}.

(** The arm of a junction at the first endpoint of a spatial pipe. *)
Definition first_arm (spec : PipeSpec) : JunctionArms.t :=
  match direction (pipe_kind spec) with
  | Direction3D.X => JunctionArms.RIGHT
  | _ => JunctionArms.UP
  end.

(** The template of the pipe: the arm template next to a junction, the
    vertical boundary along X and the horizontal boundary along Y
    otherwise. *)
Definition pipe_template_of (spec : PipeSpec) : RectangularTemplate :=
  if is_spatial_junction (cube_specs spec).1
  then get_spatial_junction_arm_raw_template (first_arm spec)
  else match direction (pipe_kind spec) with
       | Direction3D.X => get_memory_vertical_boundary_raw_template
       | _ => get_memory_horizontal_boundary_raw_template
       end.

(** The borders that face each other: the border of the pipe towards the
    first cube and the border of the first cube towards the pipe, then the
    same for the second cube. *)
Definition facing_borders (d : Direction3D.t)
  : (TemplateBorder.t * TemplateBorder.t) * (TemplateBorder.t * TemplateBorder.t) :=
  match d with
  | Direction3D.X =>
      ((TemplateBorder.LEFT, TemplateBorder.RIGHT),
       (TemplateBorder.RIGHT, TemplateBorder.LEFT))
  | _ =>
      ((TemplateBorder.BOTTOM, TemplateBorder.TOP),
       (TemplateBorder.TOP, TemplateBorder.BOTTOM))
  end.

(** The two mappings from the indices of the pipe to the indices of the
    first and of the second cube. *)
Definition spatial_mappings (spec : PipeSpec) : gmap Z Z * gmap Z Z :=
  let borders := facing_borders (direction (pipe_kind spec)) in
  (to (get_border_indices (pipe_template_of spec) borders.1.1)
      (get_border_indices (cube_templates spec).1 borders.1.2),
   to (get_border_indices (pipe_template_of spec) borders.2.1)
      (get_border_indices (cube_templates spec).2 borders.2.2)).

(** The descriptions of a layer, by its reset and measurement bases; there
    are none next to a junction when the pipe has a basis neither on X nor
    on Y. *)
Definition spatial_descriptions (spec : PipeSpec)
  : option (option Basis.t → option Basis.t → FrozenDefaultDict RPNGDescription) :=
  if is_spatial_junction (cube_specs spec).1
  then
    spatial_boundary_basis ←
      (if x (pipe_kind spec) is Some b then Some b else y (pipe_kind spec));
    Some (get_spatial_junction_qubit_rpng_descriptions
            spatial_boundary_basis (first_arm spec))
  else
    match direction (pipe_kind spec) with
    | Direction3D.X =>
        Some (get_memory_vertical_boundary_rpng_descriptions
                (if decide (y (pipe_kind spec) = Some Basis.X)
                 then ZObservableOrientation.HORIZONTAL
                 else ZObservableOrientation.VERTICAL))
    | _ =>
        Some (get_memory_horizontal_boundary_rpng_descriptions
                (if decide (x (pipe_kind spec) = Some Basis.Z)
                 then ZObservableOrientation.HORIZONTAL
                 else ZObservableOrientation.VERTICAL))
    end.

(** The three layers of a block: the reset basis of the first and the
    measurement basis of the last are the basis of the pipe on Z. *)
Definition layers_of (spec : PipeSpec)
  : list (Z * (option Basis.t * option Basis.t)) :=
  enumerate [(z (pipe_kind spec), None); (None, None); (None, z (pipe_kind spec))].

(** The entries of the plaquette layer [p] come from the descriptions
    [descriptions], compiled, with their index sent through [mapping]. *)
Definition entries_from (descriptions : FrozenDefaultDict RPNGDescription)
    (mapping : gmap Z Z) (p : Plaquettes) : Prop :=
  default_value (collection p) = _get_plaquette <$> default_value descriptions
  ∧ (∀ index plaquette, items (collection p) !! index = Some plaquette →
       ∃ index0 description,
         items descriptions !! index0 = Some description
         ∧ mapping !! index0 = Some index
         ∧ plaquette = _get_plaquette description)
  ∧ (∀ index0 description, items descriptions !! index0 = Some description →
       ∃ index, mapping !! index0 = Some index
                ∧ is_Some (items (collection p) !! index)).

End Parts.
End SpatialPipes.

(** * The scheduled measurement-basis pass *)

(** [tqec/plaquette/compilation/passes/measurement_basis.py] *)
Module ChangeMeasurementBasisPass.

(** [str.upper] on ASCII letters *)
Definition upper_ascii (c : Ascii.ascii) : Ascii.ascii :=
  let n := Ascii.nat_of_ascii c in
  if ((97 <=? n) && (n <=? 122))%nat then Ascii.ascii_of_nat (n - 32) else c.

Fixpoint upper (s : string) : string :=
  match s with
  | EmptyString => EmptyString
  | String c s' => String (upper_ascii c) (upper s')
  end.

(** The arguments the pass gives to the constructors of
    [tqec.plaquette.compilation.passes.transformer]: an instruction creator
    is made from an instruction name, a transformation from the name of the
    instruction it replaces and a dictionary from schedule offsets to the
    creators of the instructions put there. *)
Record InstructionCreator : Type := mkInstructionCreator {
  creator_name : string;
}.

Record ScheduledCircuitTransformation : Type := mkScheduledCircuitTransformation {
  source_name : string;
  transformation : gmap Z (list InstructionCreator);
}.

(** The list of transformations [__init__] hands to the base class. *)
Definition __init__ (basis : Basis.t) : list ScheduledCircuitTransformation :=
  let ibasis := if decide (basis = Basis.Z) then Basis.X else Basis.Z in
  let transformations :=
    [ mkScheduledCircuitTransformation
        ("M" +:+ upper (Basis.value ibasis))
        {[ -1 := [mkInstructionCreator "H"];
           0 := [mkInstructionCreator ("M" +:+ upper (Basis.value basis))] ]} ] in
  if decide (basis = Basis.X)
  then transformations ++
       [ mkScheduledCircuitTransformation
           "M"
           {[ -1 := [mkInstructionCreator "H"];
              0 := [mkInstructionCreator "MX"] ]} ]
  else transformations.

(** The measurement basis of [tqec.plaquette.enums] for a basis. *)
Definition measurement_basis_of (basis : Basis.t) : BasisChange.MeasurementBasis :=
  match basis with
  | Basis.X => BasisChange.MeasurementBasis_X
  | Basis.Z => BasisChange.MeasurementBasis_Z
  end.

End ChangeMeasurementBasisPass.

(** * Properties of the loop combinator *)

Lemma for_each_app {S A : Type} (body : S → A → result S) (l1 l2 : list A) (s : S) :
  for_each body (l1 ++ l2) s = for_each body l1 s ≫= for_each body l2.
Proof.
  revert s. induction l1 as [|a l1 IH]; intros s; simpl; [done|].
  destruct (body s a) as [s'|e]; simpl; [apply IH | done].
Qed.

(** A loop raises when one element makes the body raise whatever the state. *)
Lemma for_each_raises {S A : Type} (body : S → A → result S) (l : list A) (a : A) :
  a ∈ l →
  (∀ s, raises (body s a)) →
  ∀ s, raises (for_each body l s).
Proof.
  induction l as [|x l IH]; intros Hin Ha s.
  - by apply elem_of_nil in Hin.
  - cbn [for_each]. destruct (body s x) as [s'|e] eqn:Hx; cbn.
    + apply elem_of_cons in Hin as [->|Hin].
      * destruct (Ha s) as [e He]. congruence.
      * by apply IH.
    + by exists e.
Qed.

(** An exception of a loop is an exception of its body at some element. *)
Lemma for_each_error {S A : Type} (body : S → A → result S) (l : list A) (s : S)
    (e : Exception) :
  for_each body l s = Raise e → ∃ s' x, x ∈ l ∧ body s' x = Raise e.
Proof.
  revert s. induction l as [|x l IH]; intros s; cbn [for_each]; [done|].
  destruct (body s x) as [s'|e'] eqn:Hx; cbn.
  - intros Hl. destruct (IH _ Hl) as (s0 & x0 & Hin & Hb).
    exists s0, x0. split; [by right|done].
  - intros [= <-]. exists s, x. split; [by left|done].
Qed.

Lemma bind_Ok {A B : Type} (m : result A) (f : A → result B) (b : B) :
  m ≫= f = Ok b → ∃ a, m = Ok a ∧ f a = Ok b.
Proof. destruct m as [a|e]; [by exists a|done]. Qed.

Lemma assert_Ok (cond : bool) (u : unit) : assert cond = Ok u → cond = true.
Proof. by destruct cond. Qed.

(** Inversion of a computation that returned. *)
Ltac invert_Ok H :=
  repeat match type of H with
  | _ ≫= _ = Ok _ =>
      let a := fresh "a" in let Ha := fresh "Ha" in
      apply bind_Ok in H as (a & Ha & H);
      try (apply assert_Ok in Ha)
  end.

(** * Properties of the basis-change pass *)
Module BasisChangeProofs.
Import BasisChange.

Section Facts.
Context {gates : StimGates} {helpers : CircuitHelpers}.
Implicit Types (basis : PassBasis) (i : CircuitInstruction) (m : Moment).
Implicit Types (c cur bc : Circuit).

(** *** Appending to a circuit *)

Lemma append_instruction_cons a b c i :
  append_instruction (a :: b :: c) i = a :: append_instruction (b :: c) i.
Proof. done. Qed.

Lemma can_fuse_TICK a : can_fuse a TICK = false.
Proof.
  unfold can_fuse. destruct (bool_decide (name a = name TICK)) eqn:Hn.
  - apply bool_decide_eq_true in Hn. rewrite Hn.
    change (name TICK) with "TICK". by rewrite TICK_not_fusable.
  - by rewrite andb_false_r.
Qed.

(** A [TICK] is never merged. *)
Lemma append_instruction_TICK c : append_instruction c TICK = c ++ [TICK].
Proof.
  induction c as [|a c IH]; [done|].
  destruct c as [|b c].
  - cbn [append_instruction app]. by rewrite can_fuse_TICK.
  - rewrite append_instruction_cons, IH. done.
Qed.

Lemma append_TICK c : append c "TICK" [] [] = Ok (c ++ [TICK]).
Proof.
  unfold append. rewrite TICK_accepted, <- append_instruction_TICK. done.
Qed.

Lemma append_accepted c nm targets args :
  accepts nm targets args = true →
  append c nm targets args
  = Ok (append_instruction c (mkInstruction (canonical_name nm) targets args)).
Proof. unfold append. by intros ->. Qed.

Lemma append_rejected c nm targets args :
  accepts nm targets args = false →
  append c nm targets args = Raise ValueError.
Proof. unfold append. by intros ->. Qed.

(** Merging looks at the name and the arguments only. *)
Lemma can_fuse_key a b b' :
  name b' = name b → gate_args_copy b' = gate_args_copy b →
  can_fuse a b' = can_fuse a b.
Proof. unfold can_fuse. by intros -> ->. Qed.

Lemma append_instruction_head a c i :
  ∃ a' c', append_instruction (a :: c) i = a' :: c'
           ∧ name a' = name a ∧ gate_args_copy a' = gate_args_copy a.
Proof.
  destruct c as [|b c].
  - cbn [append_instruction]. destruct (can_fuse a i); by eexists _, _.
  - rewrite append_instruction_cons. by eexists _, _.
Qed.

Lemma append_instruction_not_nil c i : append_instruction c i ≠ [].
Proof.
  destruct c as [|a c]; [done|].
  by destruct (append_instruction_head a c i) as (a' & c' & -> & _).
Qed.

Lemma foldl_append_instruction_nil (l : list CircuitInstruction) c :
  foldl append_instruction c l = [] ↔ c = [] ∧ l = [].
Proof.
  revert c. induction l as [|i l IH]; intros c; cbn [foldl].
  - split; [by intros ->|by intros [-> _]].
  - rewrite IH. split; [|by intros [_ ?]].
    intros [Hnil _]. by apply append_instruction_not_nil in Hnil.
Qed.

Lemma fuse_all_nil (l : list CircuitInstruction) : fuse_all l = [] ↔ l = [].
Proof.
  unfold fuse_all. rewrite foldl_append_instruction_nil.
  split; [by intros [_ ?]|done].
Qed.

(** The targets, read in order, are kept. *)
Lemma append_instruction_targets c i :
  append_instruction c i ≫= targets_copy = (c ≫= targets_copy) ++ targets_copy i.
Proof.
  induction c as [|a c IH]; [cbn; by rewrite app_nil_r|].
  destruct c as [|b c].
  - cbn [append_instruction]. destruct (can_fuse a i); cbn; by rewrite ?app_nil_r.
  - rewrite append_instruction_cons, !bind_cons, IH, app_assoc. done.
Qed.

Lemma foldl_append_instruction_targets (l : list CircuitInstruction) c :
  foldl append_instruction c l ≫= targets_copy
  = (c ≫= targets_copy) ++ (l ≫= targets_copy).
Proof.
  revert c. induction l as [|i l IH]; intros c; cbn [foldl].
  - cbn. by rewrite app_nil_r.
  - rewrite IH, append_instruction_targets, bind_cons, app_assoc. done.
Qed.

Lemma fuse_all_targets (l : list CircuitInstruction) :
  fuse_all l ≫= targets_copy = l ≫= targets_copy.
Proof. unfold fuse_all. by rewrite foldl_append_instruction_targets. Qed.

(** What holds of the instructions that are appended, and is kept when
    targets are added to an instruction, holds of the circuit. *)
Lemma append_instruction_Forall (P : CircuitInstruction → Prop) c i :
  (∀ a b, P a → P (fused a b)) →
  Forall P c → P i → Forall P (append_instruction c i).
Proof.
  intros Hfused Hc Hi. induction Hc as [|a c Ha Hc IH].
  - by constructor.
  - destruct c as [|b c].
    + cbn [append_instruction]. destruct (can_fuse a i).
      * constructor; [by apply Hfused|constructor].
      * by repeat constructor.
    + rewrite append_instruction_cons. by constructor.
Qed.

Lemma foldl_append_instruction_Forall (P : CircuitInstruction → Prop)
    (l : list CircuitInstruction) c :
  (∀ a b, P a → P (fused a b)) →
  Forall P c → Forall P l → Forall P (foldl append_instruction c l).
Proof.
  intros Hfused Hc Hl. revert c Hc.
  induction Hl as [|i l Hi Hl IH]; intros c Hc; cbn [foldl]; [done|].
  by apply IH, append_instruction_Forall.
Qed.

(** *** Circuits in merged form *)

Lemma merged_cons a b c :
  merged (a :: b :: c) = negb (can_fuse a b) && merged (b :: c).
Proof. done. Qed.

Lemma append_instruction_merged c i :
  merged c = true → merged (append_instruction c i) = true.
Proof.
  induction c as [|a c IH]; [done|].
  destruct c as [|b c].
  - intros _. cbn [append_instruction].
    destruct (can_fuse a i) eqn:Hf; [done|]. by rewrite merged_cons, Hf.
  - rewrite merged_cons, append_instruction_cons.
    intros [Hab Hm]%andb_true_iff. specialize (IH Hm).
    destruct (append_instruction_head b c i) as (b' & c' & Heq & Hn & Ha).
    rewrite Heq in *. rewrite merged_cons, IH, andb_true_r.
    by rewrite (can_fuse_key a b b').
Qed.

Lemma foldl_append_instruction_merged (l : list CircuitInstruction) c :
  merged c = true → merged (foldl append_instruction c l) = true.
Proof.
  revert c. induction l as [|i l IH]; intros c Hc; [done|].
  cbn [foldl]. by apply IH, append_instruction_merged.
Qed.

(** stim only builds circuits in merged form. *)
Lemma fuse_all_merged (l : list CircuitInstruction) : merged (fuse_all l) = true.
Proof. by apply foldl_append_instruction_merged. Qed.

Lemma merged_app_l c1 c2 : merged (c1 ++ c2) = true → merged c1 = true.
Proof.
  induction c1 as [|a c1 IH]; [done|].
  destruct c1 as [|b c1]; [done|].
  change ((a :: b :: c1) ++ c2) with (a :: b :: (c1 ++ c2)).
  rewrite !merged_cons. intros [-> Hm]%andb_true_iff. by apply IH.
Qed.

Lemma merged_app_r c1 c2 : merged (c1 ++ c2) = true → merged c2 = true.
Proof.
  induction c1 as [|a c1 IH]; [done|].
  destruct c1 as [|b c1].
  - destruct c2 as [|b c2]; [done|]. cbn [app]. rewrite merged_cons.
    by intros [_ ?]%andb_true_iff.
  - change ((a :: b :: c1) ++ c2) with (a :: b :: (c1 ++ c2)).
    rewrite merged_cons. intros [_ Hm]%andb_true_iff. by apply IH.
Qed.

Lemma append_instruction_not_fused c i :
  merged (c ++ [i]) = true → append_instruction c i = c ++ [i].
Proof.
  induction c as [|a c IH]; [done|].
  destruct c as [|b c].
  - cbn [app]. rewrite merged_cons. intros [Hf _]%andb_true_iff.
    apply negb_true_iff in Hf. cbn [append_instruction]. by rewrite Hf.
  - change ((a :: b :: c) ++ [i]) with (a :: b :: (c ++ [i])).
    rewrite merged_cons, append_instruction_cons. intros [_ Hm]%andb_true_iff.
    by rewrite IH.
Qed.

Lemma foldl_append_instruction_merged_app (l : list CircuitInstruction) c :
  merged (c ++ l) = true → foldl append_instruction c l = c ++ l.
Proof.
  revert c. induction l as [|i l IH]; intros c Hm.
  - by rewrite app_nil_r.
  - cbn [foldl]. rewrite append_instruction_not_fused.
    + rewrite IH; by rewrite <- app_assoc.
    + apply (merged_app_l _ l). by rewrite <- app_assoc.
Qed.

(** Appending the instructions of a circuit in merged form one by one
    rebuilds the circuit. *)
Lemma fuse_all_merged_id c : merged c = true → fuse_all c = c.
Proof. intros Hm. by apply (foldl_append_instruction_merged_app c []). Qed.

(** *** Reading the basis *)

Lemma _get_instruction_basis_error i e :
  _get_instruction_basis i = Raise e →
  e = TQECException (unsupported_message (name i)).
Proof.
  unfold _get_instruction_basis.
  repeat (match goal with |- context [if ?b then _ else _] => destruct b end;
          try discriminate).
  congruence.
Qed.

Lemma _get_instruction_basis_unsupported i :
  name i ∉ plain_names →
  _get_instruction_basis i = Raise (TQECException (unsupported_message (name i))).
Proof.
  intros Hn. unfold _get_instruction_basis.
  assert (Hneq : ∀ s, s ∈ plain_names → (name i =? s)%string = false).
  { intros s Hs. apply String.eqb_neq. intros Heq. apply Hn. by rewrite Heq. }
  unfold plain_names in Hneq.
  rewrite !Hneq by set_solver. done.
Qed.

Lemma _get_instruction_basis_Ok_plain i b :
  _get_instruction_basis i = Ok b → name i ∈ plain_names.
Proof.
  intros Hb. destruct (decide (name i ∈ plain_names)) as [|Hn]; [done|].
  by rewrite _get_instruction_basis_unsupported in Hb.
Qed.

Lemma _get_instruction_basis_name i j :
  name i = name j → _get_instruction_basis i = _get_instruction_basis j.
Proof. unfold _get_instruction_basis. by intros ->. Qed.

(** The name stim stores for a renamed instruction is read back as the
    target basis. *)
Lemma _get_instruction_basis_instruction_name basis targets args :
  _get_instruction_basis
    (mkInstruction (canonical_name (instruction_name basis)) targets args)
  = Ok basis.
Proof. by destruct basis as [[]|[]]. Qed.

Lemma needs_change_selected basis i b :
  may_have_to_change basis i = true →
  _get_instruction_basis i = Ok b →
  needs_change basis i = negb (bool_decide (b = basis)).
Proof. intros Hm Hb. unfold needs_change, in_basis. by rewrite Hm, Hb. Qed.

Lemma needs_change_not_selected basis i :
  may_have_to_change basis i = false → needs_change basis i = false.
Proof. intros Hm. unfold needs_change. by rewrite Hm. Qed.

(** *** The loops on supported instructions *)

Lemma instruction_step_supported basis i cur bc :
  supported basis i →
  instruction_step basis (cur, bc) i =
    Ok (append_instruction cur (rewritten basis i),
        foldl append_instruction bc
              (hadamard_on <$> filter (λ i, needs_change basis i = true) [i])).
Proof.
  intros Hs. unfold instruction_step, rewritten.
  rewrite filter_cons, filter_nil.
  destruct (may_have_to_change basis i) eqn:Hm; cbn [negb].
  - destruct (Hs Hm) as (Hc & [b Hb] & Hacc). rewrite Hc, Hb.
    cbn [mbind result_bind].
    rewrite (needs_change_selected basis i b Hm Hb) in Hacc |- *.
    destruct (decide (b = basis)) as [->|Hne].
    + rewrite bool_decide_eq_true_2 by done. cbn [negb].
      by rewrite decide_False by done.
    + rewrite bool_decide_eq_false_2 in Hacc |- * by done. cbn [negb].
      rewrite decide_True by done.
      specialize (Hacc eq_refl). unfold change_accepted in Hacc.
      apply andb_true_iff in Hacc as [Hh Hn].
      rewrite (append_accepted _ _ _ _ Hh). cbn [mbind result_bind].
      rewrite (append_accepted _ _ _ _ Hn). done.
  - rewrite needs_change_not_selected by done.
    by rewrite decide_False by done.
Qed.

Lemma inner_loop_supported basis (l : list CircuitInstruction) cur bc :
  Forall (supported basis) l →
  for_each (instruction_step basis) l (cur, bc) =
    Ok (foldl append_instruction cur (rewritten basis <$> l),
        foldl append_instruction bc
              (hadamard_on <$> filter (λ i, needs_change basis i = true) l)).
Proof.
  intros Hl. revert cur bc.
  induction Hl as [|i l Hi Hl IH]; intros cur bc; cbn [for_each]; [done|].
  rewrite instruction_step_supported by done. cbn [mbind result_bind].
  rewrite IH, fmap_cons. cbn [foldl]. f_equal. f_equal.
  rewrite <- foldl_app, <- fmap_app. by rewrite <- (filter_app _ [i] l).
Qed.

Lemma moment_step_supported basis m ret_moments :
  Forall (supported basis) (instructions m) →
  moment_step basis ret_moments m = Ok (ret_moments ++ expand basis m).
Proof.
  intros Hm. unfold moment_step.
  rewrite inner_loop_supported by done. cbn [mbind result_bind].
  unfold expand, hadamard_moment, rewritten_moment, fuse_all.
  cbn [circuit new_Moment].
  destruct (circuit_bool _); [|by destruct basis].
  destruct basis; cbn; by rewrite <- app_assoc.
Qed.

Lemma outer_loop_supported basis (ms : list Moment) ret_moments :
  Forall (λ m, Forall (supported basis) (instructions m)) ms →
  for_each (moment_step basis) ms ret_moments =
    Ok (ret_moments ++ (ms ≫= expand basis)).
Proof.
  intros Hms. revert ret_moments.
  induction Hms as [|m ms Hm Hms IH]; intros ret_moments; cbn [for_each].
  - cbn. by rewrite app_nil_r.
  - rewrite moment_step_supported by done. cbn [mbind result_bind].
    rewrite IH, <- app_assoc. by rewrite bind_cons.
Qed.

(** The assembly loop does not raise and writes the moments separated by
    one [TICK]. *)
Lemma assemble_join_ticks (ms : list Moment) :
  assemble ms = Ok (join_ticks (circuit <$> ms)).
Proof.
  unfold assemble.
  assert (Hgen : ∀ (l : list Moment) (x : Moment) (acc : Circuit),
    ∃ r, for_each (λ ret_circuit moment,
                     append (ret_circuit ++ circuit moment) "TICK" [] [])
                  (removelast (l ++ [x])) acc = Ok r
         ∧ r ++ circuit x = acc ++ join_ticks (circuit <$> (l ++ [x]))).
  { induction l as [|y l IH]; intros x acc.
    - by exists acc.
    - change ((y :: l) ++ [x]) with (y :: (l ++ [x])).
      destruct (IH x ((acc ++ circuit y) ++ [TICK])) as (r & Hr & Heq).
      exists r. destruct (l ++ [x]) as [|z l'] eqn:Hl; [by destruct l|].
      rewrite <- Hl in *. split.
      + rewrite Hl. change (removelast (y :: z :: l')) with (y :: removelast (z :: l')).
        rewrite <- Hl. cbn [for_each]. rewrite append_TICK. exact Hr.
      + rewrite Heq, Hl. cbn. by rewrite <- !app_assoc. }
  destruct ms as [|m ms _] using rev_ind; [done|].
  destruct (Hgen ms m []) as (r & -> & Heq). cbn [mbind result_bind].
  rewrite last_snoc. by rewrite Heq.
Qed.

(** What [run] does when every selected instruction is supported. *)
Lemma run_of_supported basis (c : Circuit) (check_all_flows : bool) :
  Forall (λ m, Forall (supported basis) (instructions m))
         (iter_stim_circuit_without_repeat_by_moments c).1 →
  run basis c check_all_flows =
    match (iter_stim_circuit_without_repeat_by_moments c).2 with
    | Some e => Raise e
    | None =>
        let modified_circuit :=
          rewritten_circuit basis
            (iter_stim_circuit_without_repeat_by_moments c).1 in
        _ ← (if check_all_flows then check_flows c modified_circuit else Ok tt);
        Ok modified_circuit
    end.
Proof.
  intros Hms. unfold run, _with_basis_changed, rewritten_circuit.
  destruct (iter_stim_circuit_without_repeat_by_moments c) as [ms stopped].
  cbn [fst snd] in *. rewrite outer_loop_supported by done.
  cbn [mbind result_bind app]. destruct stopped as [e|]; [done|].
  by rewrite assemble_join_ticks.
Qed.

(** *** Exceptions *)

Lemma instruction_step_error basis st i e :
  instruction_step basis st i = Raise e →
  e = TQECException (combined_message (name i))
  ∨ e = TQECException (unsupported_message (name i))
  ∨ e = ValueError.
Proof.
  destruct st as [cur bc]. unfold instruction_step.
  destruct (negb _); [done|].
  destruct (is_combined_reset_and_measurement_instruction i).
  { intros [= <-]. by left. }
  destruct (_get_instruction_basis i) as [b|e'] eqn:Hb; cbn [mbind result_bind].
  - destruct (decide _); [done|]. unfold append.
    destruct (accepts "H" _ _); cbn [mbind result_bind]; [|intros [= <-]; auto].
    destruct (accepts _ _ _); cbn [mbind result_bind]; [done|intros [= <-]; auto].
  - intros [= <-]. right; left. by eapply _get_instruction_basis_error.
Qed.

Lemma instruction_step_combined basis st i :
  may_have_to_change basis i = true →
  is_combined_reset_and_measurement_instruction i = true →
  instruction_step basis st i = Raise (TQECException (combined_message (name i))).
Proof.
  intros Hm Hc. destruct st as [cur bc]. unfold instruction_step.
  by rewrite Hm, Hc.
Qed.

Lemma instruction_step_unknown_basis basis st i :
  may_have_to_change basis i = true →
  name i ∉ plain_names →
  instruction_step basis st i
  = Raise (TQECException
             (if is_combined_reset_and_measurement_instruction i
              then combined_message (name i)
              else unsupported_message (name i))).
Proof.
  intros Hm Hn. destruct st as [cur bc]. unfold instruction_step.
  rewrite Hm. cbn [negb].
  destruct (is_combined_reset_and_measurement_instruction i); [done|].
  by rewrite _get_instruction_basis_unsupported.
Qed.

(** An instruction whose change stim does not accept. *)
Lemma instruction_step_rejected basis st i b :
  may_have_to_change basis i = true →
  is_combined_reset_and_measurement_instruction i = false →
  _get_instruction_basis i = Ok b →
  b ≠ basis →
  change_accepted basis i = false →
  instruction_step basis st i = Raise ValueError.
Proof.
  intros Hm Hc Hb Hne Hacc. destruct st as [cur bc]. unfold instruction_step.
  rewrite Hm, Hc, Hb. cbn [negb mbind result_bind].
  rewrite decide_False by done.
  unfold change_accepted in Hacc. apply andb_false_iff in Hacc as [Hh|Hn].
  - rewrite (append_rejected _ _ _ _ Hh). reflexivity.
  - destruct (accepts "H" (targets_copy i) []) eqn:Hh.
    + rewrite (append_accepted _ _ _ _ Hh). cbn [mbind result_bind].
      rewrite (append_rejected _ _ _ _ Hn). reflexivity.
    + rewrite (append_rejected _ _ _ _ Hh). reflexivity.
Qed.

Lemma moment_step_error basis ret_moments m e :
  moment_step basis ret_moments m = Raise e → pass_error e.
Proof.
  unfold moment_step.
  destruct (for_each _ _ _) as [[cur bc]|e'] eqn:Hloop; [done|].
  intros [= <-].
  apply for_each_error in Hloop as (st & i & _ & Hstep).
  apply instruction_step_error in Hstep as [->|[->| ->]].
  - left. exists (name i). by left.
  - left. exists (name i). by right.
  - by right.
Qed.

Lemma moment_step_raises basis ret_moments m i :
  i ∈ instructions m →
  (∀ st, raises (instruction_step basis st i)) →
  raises (moment_step basis ret_moments m).
Proof.
  intros Hi Hraise. unfold moment_step.
  destruct (for_each_raises (instruction_step basis) (instructions m) i Hi Hraise
              ([], [])) as [e ->].
  by exists e.
Qed.

(** An instruction on which the inner loop always raises makes the pass
    raise one of its two exceptions or the one of stim. *)
Lemma run_raises basis (c : Circuit) (check_all_flows : bool) m i :
  m ∈ (iter_stim_circuit_without_repeat_by_moments c).1 →
  i ∈ instructions m →
  (∀ st, raises (instruction_step basis st i)) →
  ∃ e, run basis c check_all_flows = Raise e ∧ pass_error e.
Proof.
  intros Hm Hi Hraise.
  destruct (iter_stim_circuit_without_repeat_by_moments c) as [ms stopped] eqn:Hit.
  cbn [fst] in Hm.
  destruct (for_each_raises (moment_step basis) ms m Hm
              (λ s, moment_step_raises basis s m i Hi Hraise) []) as [e He].
  exists e. split.
  - unfold run, _with_basis_changed. by rewrite Hit, He.
  - apply for_each_error in He as (s & m' & _ & Hstep).
    by eapply moment_step_error.
Qed.

(** The exception is the one of the first instruction the pass cannot
    handle: everything before it, in the earlier moments and earlier in its
    moment, is supported. *)
Lemma run_first_offender basis (c : Circuit) (check_all_flows : bool)
    (ms1 ms2 : list Moment) m (is1 is2 : list CircuitInstruction) i e :
  (iter_stim_circuit_without_repeat_by_moments c).1 = ms1 ++ m :: ms2 →
  instructions m = is1 ++ i :: is2 →
  Forall (λ m, Forall (supported basis) (instructions m)) ms1 →
  Forall (supported basis) is1 →
  (∀ st, instruction_step basis st i = Raise e) →
  run basis c check_all_flows = Raise e.
Proof.
  intros Hit Hm Hms1 His1 Hstep.
  assert (∀ ret_moments, moment_step basis ret_moments m = Raise e) as Hmoment.
  { intros ret_moments. unfold moment_step.
    rewrite Hm, for_each_app, inner_loop_supported by done.
    cbn [mbind result_bind for_each]. by rewrite Hstep. }
  unfold run, _with_basis_changed.
  destruct (iter_stim_circuit_without_repeat_by_moments c) as [ms stopped].
  cbn [fst] in Hit. subst ms.
  rewrite for_each_app, outer_loop_supported by done.
  cbn [mbind result_bind for_each]. by rewrite Hmoment.
Qed.

(** The first instruction the pass cannot handle decides the message. *)
Corollary run_first_combined basis (c : Circuit) (check_all_flows : bool)
    (ms1 ms2 : list Moment) m (is1 is2 : list CircuitInstruction) i :
  (iter_stim_circuit_without_repeat_by_moments c).1 = ms1 ++ m :: ms2 →
  instructions m = is1 ++ i :: is2 →
  Forall (λ m, Forall (supported basis) (instructions m)) ms1 →
  Forall (supported basis) is1 →
  may_have_to_change basis i = true →
  is_combined_reset_and_measurement_instruction i = true →
  run basis c check_all_flows = Raise (TQECException (combined_message (name i))).
Proof.
  intros Hit Hm Hms1 His1 Hsel Hcomb.
  apply (run_first_offender basis c check_all_flows ms1 ms2 m is1 is2 i); try done.
  intros st. by apply instruction_step_combined.
Qed.


(** *** The rewriting *)

(** C1, as amended.  When every selected instruction of the moments of the
    circuit is supported, [run] returns the moments of the circuit separated
    by [TICK], where each moment is rebuilt by appending its instructions to
    a stim circuit, the selected instructions of another basis under the
    name of the target basis and all others unchanged, and is accompanied by
    one moment of [H] on the targets of the renamed instructions: placed
    immediately before the moment for a measurement target and immediately
    after it for a reset target (see [expand]).  The one exception the moment
    iterator may end with, and the one of the flow check when it is asked
    for, are raised instead. *)
Theorem run_places_hadamard_moment basis (c : Circuit) (check_all_flows : bool) :
  Forall (λ m, Forall (supported basis) (instructions m))
         (iter_stim_circuit_without_repeat_by_moments c).1 →
  run basis c check_all_flows =
    match (iter_stim_circuit_without_repeat_by_moments c).2 with
    | Some e => Raise e
    | None =>
        let modified_circuit :=
          join_ticks
            (circuit <$> ((iter_stim_circuit_without_repeat_by_moments c).1
                            ≫= expand basis)) in
        _ ← (if check_all_flows then check_flows c modified_circuit else Ok tt);
        Ok modified_circuit
    end.
Proof. apply run_of_supported. Qed.

(** An instruction that is not selected, or that has the target basis, is
    kept as it is and contributes no [H]. *)
Lemma rewritten_same_basis basis i :
  needs_change basis i = false → rewritten basis i = i.
Proof. intros Hn. unfold rewritten. by rewrite Hn. Qed.

Lemma already_in_basis_no_change basis i :
  already_in_basis basis i → needs_change basis i = false.
Proof.
  intros Hi. unfold needs_change, in_basis.
  destruct (may_have_to_change basis i) eqn:Hm; [|done].
  destruct (Hi Hm) as [_ ->]. by rewrite bool_decide_eq_true_2.
Qed.

Lemma already_in_basis_supported basis i :
  already_in_basis basis i → supported basis i.
Proof.
  intros Hi Hm. destruct (Hi Hm) as [? ?].
  split; [done|]. split; [eauto|].
  by rewrite already_in_basis_no_change.
Qed.

Lemma rewritten_already_in_basis basis (l : list CircuitInstruction) :
  Forall (already_in_basis basis) l →
  rewritten basis <$> l = l
  ∧ filter (λ i, needs_change basis i = true) l = [].
Proof.
  induction 1 as [|i l Hi Hl [IH1 IH2]]; [done|].
  rewrite fmap_cons, filter_cons, IH1, IH2.
  rewrite rewritten_same_basis by by apply already_in_basis_no_change.
  rewrite decide_False; [done|]. by rewrite already_in_basis_no_change.
Qed.

Lemma expand_already_in_basis basis m :
  merged (circuit m) = true →
  Forall (already_in_basis basis) (instructions m) →
  circuit <$> expand basis m = [circuit m].
Proof.
  intros Hmerged Hm. unfold expand, hadamard_moment, rewritten_moment.
  cbn [circuit new_Moment].
  destruct (rewritten_already_in_basis basis _ Hm) as [-> ->].
  cbn. by rewrite fuse_all_merged_id.
Qed.

Lemma expand_all_already_in_basis basis (ms : list Moment) :
  Forall (λ m, merged (circuit m) = true) ms →
  Forall (λ m, Forall (already_in_basis basis) (instructions m)) ms →
  circuit <$> (ms ≫= expand basis) = circuit <$> ms.
Proof.
  induction 1 as [|m ms Hm Hms IH]; [done|].
  intros [Hb Hbs]%Forall_cons.
  rewrite bind_cons, fmap_app, IH, expand_already_in_basis by done. done.
Qed.

(** The moments of a circuit in merged form are in merged form. *)
Lemma join_ticks_merged (cs : list Circuit) :
  merged (join_ticks cs) = true → Forall (λ c, merged c = true) cs.
Proof.
  induction cs as [|c cs IH]; [by constructor|].
  destruct cs as [|c' cs].
  - intros Hm. by repeat constructor.
  - change (join_ticks (c :: c' :: cs)) with (c ++ TICK :: join_ticks (c' :: cs)).
    intros Hm. constructor.
    + by apply merged_app_l in Hm.
    + apply IH. apply merged_app_r in Hm.
      by apply (merged_app_r [TICK]) in Hm.
Qed.

(** C9, as amended.  For a circuit in the form stim builds, that is the
    sequence of the moments the iterator yields, separated by [TICK], and
    all of whose selected instructions already have the target basis, [run]
    returns its input, unless the flow check is asked for and raises, and
    running the pass again on the result gives the same result. *)
Theorem run_identity_when_basis_matches basis (c : Circuit)
    (check_all_flows : bool) :
  (iter_stim_circuit_without_repeat_by_moments c).2 = None →
  join_ticks (circuit <$> (iter_stim_circuit_without_repeat_by_moments c).1) = c →
  merged c = true →
  Forall (λ m, Forall (already_in_basis basis) (instructions m))
         (iter_stim_circuit_without_repeat_by_moments c).1 →
  run basis c check_all_flows
  = (_ ← (if check_all_flows then check_flows c c else Ok tt); Ok c)
  ∧ (run basis c check_all_flows ≫= λ c', run basis c' check_all_flows)
    = run basis c check_all_flows.
Proof.
  intros Hit Hjoin Hmerged Hms.
  assert (run basis c check_all_flows
          = (_ ← (if check_all_flows then check_flows c c else Ok tt); Ok c))
    as Hrun.
  { rewrite run_of_supported.
    - rewrite Hit. unfold rewritten_circuit.
      rewrite expand_all_already_in_basis, Hjoin; [done| |done].
      rewrite <- Hjoin in Hmerged. apply join_ticks_merged in Hmerged.
      by apply Forall_fmap in Hmerged.
    - eapply Forall_impl; [exact Hms|]. intros m Hm.
      eapply Forall_impl; [exact Hm|]. apply already_in_basis_supported. }
  split; [done|]. rewrite Hrun.
  destruct check_all_flows.
  - destruct (check_flows c c) eqn:Hflows; cbn [mbind result_bind]; [|done].
    exact Hrun.
  - cbn [mbind result_bind]. by rewrite Hrun.
Qed.

(** C7.  A circuit with a selected combined reset and measurement
    instruction makes [run] raise; no circuit is returned.  The exception is
    a [TQECException], or the [ValueError] of stim when an earlier
    instruction could not be changed; it is the [TQECException] for combined
    instructions when everything before the instruction is supported. *)
Theorem run_rejects_combined basis (c : Circuit) (check_all_flows : bool) m i :
  m ∈ (iter_stim_circuit_without_repeat_by_moments c).1 →
  i ∈ instructions m →
  may_have_to_change basis i = true →
  is_combined_reset_and_measurement_instruction i = true →
  (∃ e, run basis c check_all_flows = Raise e
        ∧ ((∃ msg, e = TQECException msg) ∨ e = ValueError))
  ∧ (∀ (ms1 ms2 : list Moment) (is1 is2 : list CircuitInstruction),
       (iter_stim_circuit_without_repeat_by_moments c).1 = ms1 ++ m :: ms2 →
       instructions m = is1 ++ i :: is2 →
       Forall (λ m, Forall (supported basis) (instructions m)) ms1 →
       Forall (supported basis) is1 →
       run basis c check_all_flows
       = Raise (TQECException (combined_message (name i)))).
Proof.
  intros Hm Hi Hsel Hcomb. split.
  - destruct (run_raises basis c check_all_flows m i Hm Hi) as (e & -> & He).
    + intros st. eexists. by apply instruction_step_combined.
    + exists e. split; [done|].
      destruct He as [(nm & [-> | ->])| ->]; eauto.
  - intros ms1 ms2 is1 is2 Hit Hins Hms1 His1. by eapply run_first_combined.
Qed.


(** *** The conditions as checks *)

Lemma supportedb_correct basis i : supportedb basis i = true → supported basis i.
Proof.
  unfold supportedb, supported. intros Hb Hm. rewrite Hm in Hb. cbn in Hb.
  apply andb_true_iff in Hb as [Hb Hacc].
  apply andb_true_iff in Hb as [Hc Hg]. apply negb_true_iff in Hc.
  split; [done|]. split.
  - destruct (_get_instruction_basis i) as [b|]; [by exists b|done].
  - intros Hneed. by rewrite Hneed in Hacc.
Qed.

Lemma already_in_basisb_correct basis i :
  already_in_basisb basis i = true → already_in_basis basis i.
Proof.
  unfold already_in_basisb, already_in_basis, in_basis. intros Hb Hm.
  rewrite Hm in Hb. cbn in Hb.
  apply andb_true_iff in Hb as [Hc Hg]. apply negb_true_iff in Hc.
  split; [done|]. destruct (_get_instruction_basis i) as [b|]; [|done].
  by apply bool_decide_eq_true in Hg as ->.
Qed.

Lemma moments_checked (P : CircuitInstruction → Prop) (p : CircuitInstruction → bool)
    (ms : list Moment) :
  (∀ i, p i = true → P i) →
  forallb (λ m, forallb p (instructions m)) ms = true →
  Forall (λ m, Forall P (instructions m)) ms.
Proof.
  intros Hp Hall. apply Forall_forall. intros m Hm. apply Forall_forall. intros i Hi.
  apply Hp. rewrite forallb_forall in Hall.
  apply list_elem_of_In in Hm, Hi. specialize (Hall m Hm).
  rewrite forallb_forall in Hall. by apply Hall.
Qed.

End Facts.

(** ** The pass on concrete circuits *)

(** [M 0], [X 5], [M 1] in the X basis: one [H] on both measured qubits
    before the moment. *)
Lemma run_places_hadamard_moment_witness :
  run (Measurement MeasurementBasis_X)
      [on "M" 0; on "X" 5; on "M" 1] false
  = Ok [mkInstruction "H" [qubit 0; qubit 1] []; TICK;
        on "MX" 0; on "X" 5; on "MX" 1].
Proof.
  exact (run_places_hadamard_moment (Measurement MeasurementBasis_X)
           [on "M" 0; on "X" 5; on "M" 1] false
           (moments_checked
              (supported (Measurement MeasurementBasis_X))
              (supportedb (Measurement MeasurementBasis_X))
              (moments_from [] [on "M" 0; on "X" 5; on "M" 1])
              (supportedb_correct (Measurement MeasurementBasis_X)) eq_refl)).
Defined.

(** C1 as stated fails: for the reset target Z the circuit [RX 0] becomes
    [R 0], [TICK], [H 0], with the basis change after the reset, and not
    [H 0], [TICK], [R 0] as the placement before resets would give. *)
Lemma run_hadamard_after_reset :
  run (Reset ResetBasis_Z) [on "RX" 0] false
  = Ok [on "R" 0; TICK; on "H" 0]
  ∧ join_ticks (circuit <$> (moments_from [] [on "RX" 0]
                               ≫= expand_as_specified (Reset ResetBasis_Z)))
    = [on "H" 0; TICK; on "R" 0]
  ∧ run (Reset ResetBasis_Z) [on "RX" 0] false
    ≠ Ok (join_ticks (circuit <$> (moments_from [] [on "RX" 0]
                                     ≫= expand_as_specified (Reset ResetBasis_Z)))).
Proof. split; [reflexivity|]. split; [reflexivity|]. discriminate. Qed.

Lemma run_identity_when_basis_matches_witness :
  run (Measurement MeasurementBasis_Z)
      [on "M" 0; on "H" 1; TICK; on "M" 2] true
  = Ok [on "M" 0; on "H" 1; TICK; on "M" 2]
  ∧ (run (Measurement MeasurementBasis_Z)
         [on "M" 0; on "H" 1; TICK; on "M" 2] true
       ≫= λ c', run (Measurement MeasurementBasis_Z) c' true)
    = run (Measurement MeasurementBasis_Z)
          [on "M" 0; on "H" 1; TICK; on "M" 2] true.
Proof.
  exact (run_identity_when_basis_matches (Measurement MeasurementBasis_Z)
           [on "M" 0; on "H" 1; TICK; on "M" 2] true
           eq_refl eq_refl eq_refl
           (moments_checked
              (already_in_basis (Measurement MeasurementBasis_Z))
              (already_in_basisb (Measurement MeasurementBasis_Z))
              (moments_from [] [on "M" 0; on "H" 1; TICK; on "M" 2])
              (already_in_basisb_correct (Measurement MeasurementBasis_Z))
              eq_refl)).
Defined.

(** C9 as stated fails: every measurement of [M 0], [TICK] is in the Z
    basis, and the pass returns [M 0], without the [TICK]. *)
Lemma run_drops_trailing_tick :
  Forall (λ m, Forall (already_in_basis (Measurement MeasurementBasis_Z))
                      (instructions m))
         (iter_stim_circuit_without_repeat_by_moments [on "M" 0; TICK]).1
  ∧ run (Measurement MeasurementBasis_Z) [on "M" 0; TICK] false = Ok [on "M" 0]
  ∧ run (Measurement MeasurementBasis_Z) [on "M" 0; TICK] false
    ≠ Ok [on "M" 0; TICK].
Proof.
  split; [|split; [reflexivity|discriminate]].
  apply (moments_checked _ _ _ (already_in_basisb_correct _)). reflexivity.
Qed.

Lemma run_rejects_combined_witness :
  (∃ e, run (Measurement MeasurementBasis_X)
            [on "H" 0; TICK; on "MR" 1; on "MX" 2] false = Raise e
        ∧ ((∃ msg, e = TQECException msg) ∨ e = ValueError))
  ∧ run (Measurement MeasurementBasis_X)
        [on "H" 0; TICK; on "MR" 1; on "MX" 2] false
    = Raise (TQECException (combined_message "MR")).
Proof.
  pose proof (run_rejects_combined (Measurement MeasurementBasis_X)
                [on "H" 0; TICK; on "MR" 1; on "MX" 2] false
                (new_Moment [on "MR" 1; on "MX" 2] None) (on "MR" 1)) as Hrun.
  destruct Hrun as [Hraise Hfirst].
  - apply list_elem_of_lookup. by exists 1%nat.
  - apply list_elem_of_lookup. by exists 0%nat.
  - reflexivity.
  - reflexivity.
  - split; [exact Hraise|].
    apply (Hfirst [new_Moment [on "H" 0] None] [] [] [on "MX" 2]).
    + reflexivity.
    + reflexivity.
    + apply (moments_checked _ _ _ (supportedb_correct _)). reflexivity.
    + apply Forall_nil_2.
Defined.


End BasisChangeProofs.

(** * Properties of the base builders *)
Module BuildersProofs.
Import Builders BaseSubstitutionBuilder.

Section Facts.
Context `{TemplateLibrary}.
Implicit Types (spec : PipeSpec).

(** ** The block builder *)

(** C8.  For a [Port] the block builder raises a [TQECException] that says a
    port cannot be built, for a [YCube] it raises [NotImplementedError]; in
    neither case is a block returned. *)
Theorem block_builder_rejects_port_and_ycube (arms : JunctionArms.t) :
  BaseBlockBuilder.__call__ (mkCubeSpec Port arms)
  = Raise (TQECException "Cannot build a block for a Port.")
  ∧ BaseBlockBuilder.__call__ (mkCubeSpec YCube arms)
    = Raise (NotImplementedError "Y cube is not implemented.").
Proof. split; reflexivity. Qed.

(** A [ZXCube] is built: three layers on the memory or on the junction
    template. *)
Lemma block_builder_builds_zx_cube (bx by_ bz : Basis.t) (arms : JunctionArms.t) :
  ∃ block, BaseBlockBuilder.__call__ (mkCubeSpec (ZXCube bx by_ bz) arms) = Ok block
           ∧ length (layers block) = 3%nat.
Proof.
  unfold BaseBlockBuilder.__call__, BaseBlockBuilder._get_template_and_plaquettes.
  cbn [kind as_tuple].
  destruct (negb _); cbn; eexists; split; reflexivity.
Qed.

(** ** Temporal pipes *)

(** A temporal pipe has a basis on the X axis. *)
Lemma temporal_x_basis (k : PipeKind) :
  is_temporal k = true → ∃ b, x k = Some b.
Proof.
  unfold is_temporal, direction. destruct (x k) as [b|]; [by exists b|done].
Qed.

(** C5.  For a temporal pipe without Hadamard the substitution has one and
    the same layer, the memory layer in the orientation of the pipe, at
    index -1 of the source side and at index 0 of the destination side. *)
Theorem temporal_substitution_same_layer spec :
  is_temporal (pipe_kind spec) = true →
  has_hadamard (pipe_kind spec) = false →
  ∃ s b,
    BaseSubstitutionBuilder.__call__ spec = Ok s
    ∧ x (pipe_kind spec) = Some b
    ∧ src s !! (-1) = Some (layer_of (get_memory_qubit_rpng_descriptions
                                        (orientation_of b) None None))
    ∧ dst s !! 0 = src s !! (-1).
Proof.
  intros Ht Hh. destruct (temporal_x_basis _ Ht) as [b Hb].
  unfold BaseSubstitutionBuilder.__call__,
    BaseSubstitutionBuilder.get_temporal_pipe_substitution,
    BaseSubstitutionBuilder._get_temporal_non_hadamard_pipe_substitution.
  rewrite Ht, Hh, Hb. cbn [assert negb mbind result_bind].
  eexists _, b. split; [reflexivity|]. split; [done|].
  cbn [src dst]. rewrite !lookup_singleton_eq. split; [|done].
  unfold layer_of. by destruct b.
Qed.

(** C4.  For a temporal pipe with Hadamard the source side has, at index -1,
    the Hadamard transition layer in the orientation of the basis of the
    pipe on the X axis at its head, and the destination side has, at
    index 0, the memory layer in the rotated orientation. *)
Theorem temporal_hadamard_substitution spec :
  is_temporal (pipe_kind spec) = true →
  has_hadamard (pipe_kind spec) = true →
  ∃ b,
    get_basis_along (pipe_kind spec) Direction3D.X true = Some b
    ∧ BaseSubstitutionBuilder.__call__ spec
      = Ok (mkSubstitution
              {[ -1 := layer_of (get_temporal_hadamard_rpng_descriptions
                                   (orientation_of b)) ]}
              {[ 0 := layer_of (get_memory_qubit_rpng_descriptions
                                  (rotated (orientation_of b)) None None) ]}).
Proof.
  intros Ht Hh. destruct (temporal_x_basis _ Ht) as [b Hb]. exists b.
  assert (get_basis_along (pipe_kind spec) Direction3D.X true = Some b) as Hhead.
  { unfold get_basis_along. by rewrite Hb. }
  split; [done|].
  unfold BaseSubstitutionBuilder.__call__,
    BaseSubstitutionBuilder.get_temporal_pipe_substitution,
    BaseSubstitutionBuilder._get_temporal_hadamard_pipe_substitution.
  rewrite Ht, Hh, Hhead. cbn [assert mbind result_bind].
  by destruct b.
Qed.

(** ** Spatial pipes *)

Lemma spatial_not_temporal (k : PipeKind) :
  is_spatial k = true → is_temporal k = false.
Proof. unfold is_spatial. by destruct (is_temporal k). Qed.

(** C6.  For a spatial pipe between two spatial junctions the builder raises
    the [TQECException] that names the situation. *)
Theorem two_junctions_rejected spec :
  is_spatial (pipe_kind spec) = true →
  is_spatial_junction (cube_specs spec).1 = true →
  is_spatial_junction (cube_specs spec).2 = true →
  BaseSubstitutionBuilder.__call__ spec
  = Raise (TQECException
             "Found 2 spatial junctions connected. This is not supported yet.").
Proof.
  intros Hs H1 H2.
  unfold BaseSubstitutionBuilder.__call__,
    BaseSubstitutionBuilder.get_spatial_pipe_substitution,
    BaseSubstitutionBuilder._get_spatial_junction_pipe_substitution.
  by rewrite (spatial_not_temporal _ Hs), Hs, H1, H2.
Qed.

(** The arm of the junction, by the endpoint that is the junction and the
    axis of the pipe. *)
Lemma _get_spatial_junction_arm_cases spec :
  is_spatial (pipe_kind spec) = true →
  BaseSubstitutionBuilder._get_spatial_junction_arm spec
  = Ok (match is_spatial_junction (cube_specs spec).1, direction (pipe_kind spec) with
        | true, Direction3D.X => JunctionArms.RIGHT
        | false, Direction3D.X => JunctionArms.LEFT
        | true, _ => JunctionArms.UP
        | false, _ => JunctionArms.DOWN
        end).
Proof.
  intros Hs. apply spatial_not_temporal in Hs.
  unfold BaseSubstitutionBuilder._get_spatial_junction_arm.
  unfold is_temporal in Hs.
  destruct (is_spatial_junction _), (direction (pipe_kind spec)); done.
Qed.

(** A spatial pipe whose second endpoint only is a spatial junction is sent
    to the builder of regular pipes, whose first assertion fails. *)
Lemma junction_at_second_endpoint_asserts spec :
  is_spatial (pipe_kind spec) = true →
  is_spatial_junction (cube_specs spec).1 = false →
  is_spatial_junction (cube_specs spec).2 = true →
  BaseSubstitutionBuilder.__call__ spec = Raise AssertionError.
Proof.
  intros Hs H1 H2.
  unfold BaseSubstitutionBuilder.__call__,
    BaseSubstitutionBuilder.get_spatial_pipe_substitution,
    BaseSubstitutionBuilder._get_spatial_regular_pipe_substitution.
  by rewrite (spatial_not_temporal _ Hs), Hs, H1, H2.
Qed.

(** ** The layer indices of a substitution *)

Lemma layer_step_dom descriptions mappings
    (st st' : gmap Z Plaquettes * gmap Z Plaquettes)
    (layer : Z * (option Basis.t * option Basis.t)) :
  layer_step descriptions mappings st layer = Ok st' →
  dom st'.1 = {[ layer.1 ]} ∪ dom st.1 ∧ dom st'.2 = {[ layer.1 ]} ∪ dom st.2.
Proof.
  destruct st as [s1 s2], layer as [k [r m]]. unfold layer_step.
  intros Hstep. invert_Ok Hstep. injection Hstep as <-.
  cbn [fst snd]. by rewrite !dom_insert_L.
Qed.

(** The loop over the three layers fills the indices 0, 1 and 2 on both
    sides. *)
Lemma layers_loop_dom descriptions mappings
    (l0 l1 l2 : option Basis.t * option Basis.t)
    (st : gmap Z Plaquettes * gmap Z Plaquettes) :
  for_each (layer_step descriptions mappings) (enumerate [l0; l1; l2]) (∅, ∅) = Ok st →
  dom st.1 = {[ 0; 1; 2 ]} ∧ dom st.2 = {[ 0; 1; 2 ]}.
Proof.
  cbn [enumerate imap for_each]. intros Hloop.
  apply bind_Ok in Hloop as (st0 & Hstep0 & Hloop).
  apply bind_Ok in Hloop as (st1 & Hstep1 & Hloop).
  apply bind_Ok in Hloop as (st2 & Hstep2 & Hloop).
  injection Hloop as <-.
  apply layer_step_dom in Hstep0 as [Ha1 Ha2].
  apply layer_step_dom in Hstep1 as [Hb1 Hb2].
  apply layer_step_dom in Hstep2 as [Hc1 Hc2].
  cbn [fst snd] in Ha1, Ha2, Hb1, Hb2, Hc1, Hc2.
  rewrite Hc1, Hc2, Hb1, Hb2, Ha1, Ha2, !dom_empty_L.
  split; set_solver.
Qed.

(** C3, as amended.  A substitution returned for a temporal pipe has the
    single layer index -1 on its source side and the single layer index 0 on
    its destination side; a substitution returned for a spatial pipe has the
    three layer indices 0, 1 and 2 on both sides. *)
Theorem substitution_layer_indices spec (s : Substitution) :
  BaseSubstitutionBuilder.__call__ spec = Ok s →
  if is_temporal (pipe_kind spec)
  then dom (src s) = {[ -1 ]} ∧ dom (dst s) = {[ 0 ]}
  else dom (src s) = {[ 0; 1; 2 ]} ∧ dom (dst s) = {[ 0; 1; 2 ]}.
Proof.
  unfold BaseSubstitutionBuilder.__call__.
  destruct (is_temporal (pipe_kind spec)) eqn:Ht.
  - unfold get_temporal_pipe_substitution.
    rewrite Ht. cbn [assert mbind result_bind].
    destruct (has_hadamard (pipe_kind spec)) eqn:Hh.
    + destruct (temporal_hadamard_substitution spec Ht Hh) as (b & _ & Hcall).
      unfold BaseSubstitutionBuilder.__call__, get_temporal_pipe_substitution
        in Hcall.
      rewrite Ht, Hh in Hcall. cbn [assert mbind result_bind] in Hcall.
      rewrite Hcall. intros [= <-]. cbn [src dst].
      by rewrite !dom_singleton_L.
    + unfold _get_temporal_non_hadamard_pipe_substitution.
      rewrite Ht, Hh. cbn [assert negb mbind result_bind].
      intros [= <-]. cbn [src dst]. by rewrite !dom_singleton_L.
  - unfold get_spatial_pipe_substitution. intros Hcall. invert_Ok Hcall.
    destruct (is_spatial_junction (cube_specs spec).1).
    + unfold _get_spatial_junction_pipe_substitution in Hcall.
      invert_Ok Hcall.
      destruct (_ && _); [done|]. invert_Ok Hcall.
      destruct (match x (pipe_kind spec) with Some _ => _ | None => _ end);
        [|done].
      invert_Ok Hcall.
      match goal with
      | Hloop : for_each (layer_step _ _) _ _ = Ok ?st |- _ =>
          apply layers_loop_dom in Hloop; destruct st; by injection Hcall as <-
      end.
    + unfold _get_spatial_regular_pipe_substitution in Hcall.
      invert_Ok Hcall.
      match goal with
      | Hchoice : _ = Ok ?choice |- _ =>
          lazymatch type of choice with
          | (_ * _ * _)%type => destruct choice as [[mappings factory] o]
          end
      end.
      invert_Ok Hcall.
      match goal with
      | Hloop : for_each (layer_step _ _) _ _ = Ok ?st |- _ =>
          apply layers_loop_dom in Hloop; destruct st; by injection Hcall as <-
      end.
Qed.

(** With the junction at the first endpoint the junction builder is used,
    on the arm template of the arm RIGHT for a pipe along X and UP for a pipe
    along Y. *)
Lemma junction_at_first_endpoint spec :
  is_spatial (pipe_kind spec) = true →
  is_spatial_junction (cube_specs spec).1 = true →
  BaseSubstitutionBuilder.__call__ spec = _get_spatial_junction_pipe_substitution spec
  ∧ _get_spatial_junction_arm spec
    = Ok (match direction (pipe_kind spec) with
          | Direction3D.X => JunctionArms.RIGHT
          | _ => JunctionArms.UP
          end).
Proof.
  intros Hs H1. split.
  - unfold BaseSubstitutionBuilder.__call__, get_spatial_pipe_substitution.
    by rewrite (spatial_not_temporal _ Hs), Hs, H1.
  - rewrite _get_spatial_junction_arm_cases by done. by rewrite H1.
Qed.

End Facts.

(** ** The builders on concrete specifications *)
Import SampleLibrary.

(** C2 fails on the code: for a pipe along X from a regular cube to a
    spatial junction the arm is LEFT, but the builder sends the pipe to the
    builder of regular pipes and raises [AssertionError]. *)
Theorem junction_at_second_endpoint_x :
  is_spatial x_kind = true
  ∧ is_spatial_junction regular_cube = false
  ∧ is_spatial_junction junction_cube = true
  ∧ _get_spatial_junction_arm (pipe_between regular_cube junction_cube x_kind)
    = Ok JunctionArms.LEFT
  ∧ BaseSubstitutionBuilder.__call__ (pipe_between regular_cube junction_cube x_kind)
    = Raise AssertionError.
Proof.
  repeat split.
Qed.

(** C3 as stated fails: the substitution of a spatial pipe has the layer
    index 2 on both sides. *)
Lemma spatial_substitution_has_layer_2 :
  ∃ s, BaseSubstitutionBuilder.__call__ (pipe_between regular_cube regular_cube x_kind)
       = Ok s
       ∧ 2 ∈ dom (src s) ∧ 2 ∈ dom (dst s)
       ∧ ¬ (dom (src s) ⊆ {[ -1; 0 ]} ∧ dom (dst s) ⊆ {[ -1; 0 ]}).
Proof.
  eexists. split; [reflexivity|].
  assert (∀ m : gmap Z Plaquettes, is_Some (m !! 2) → 2 ∈ dom m) as Hdom.
  { intros m. apply elem_of_dom. }
  split; [|split].
  - apply Hdom. vm_compute. eauto.
  - apply Hdom. vm_compute. eauto.
  - intros [Hsrc _].
    assert (2 ∈ ({[ -1; 0 ]} : gset Z)) as Hin.
    { apply Hsrc, Hdom. vm_compute. eauto. }
    apply elem_of_union in Hin as [Hin|Hin]; by apply elem_of_singleton in Hin.
Qed.

Lemma substitution_layer_indices_witness :
  ∃ s, BaseSubstitutionBuilder.__call__ (pipe_between regular_cube regular_cube y_kind)
       = Ok s
       ∧ dom (src s) = {[ 0; 1; 2 ]} ∧ dom (dst s) = {[ 0; 1; 2 ]}.
Proof.
  eexists. split; [reflexivity|].
  exact (substitution_layer_indices
           (pipe_between regular_cube regular_cube y_kind) _ eq_refl).
Defined.

Lemma temporal_substitution_same_layer_witness :
  ∃ s b,
    BaseSubstitutionBuilder.__call__ (pipe_between regular_cube regular_cube temporal_kind)
    = Ok s
    ∧ x temporal_kind = Some b
    ∧ src s !! (-1) = Some (layer_of (get_memory_qubit_rpng_descriptions
                                        (orientation_of b) None None))
    ∧ dst s !! 0 = src s !! (-1).
Proof.
  apply (temporal_substitution_same_layer
           (pipe_between regular_cube regular_cube temporal_kind));
    reflexivity.
Defined.

Lemma temporal_hadamard_substitution_witness :
  ∃ b,
    get_basis_along temporal_hadamard_kind Direction3D.X true = Some b
    ∧ BaseSubstitutionBuilder.__call__
        (pipe_between regular_cube regular_cube temporal_hadamard_kind)
      = Ok (mkSubstitution
              {[ -1 := layer_of (get_temporal_hadamard_rpng_descriptions
                                   (orientation_of b)) ]}
              {[ 0 := layer_of (get_memory_qubit_rpng_descriptions
                                  (rotated (orientation_of b)) None None) ]}).
Proof.
  apply (temporal_hadamard_substitution
           (pipe_between regular_cube regular_cube temporal_hadamard_kind));
    reflexivity.
Defined.

Lemma two_junctions_rejected_witness :
  BaseSubstitutionBuilder.__call__ (pipe_between junction_cube junction_cube y_kind)
  = Raise (TQECException
             "Found 2 spatial junctions connected. This is not supported yet.").
Proof.
  apply (two_junctions_rejected (pipe_between junction_cube junction_cube y_kind));
    reflexivity.
Defined.

End BuildersProofs.

(** * Further properties of the basis-change pass *)
Module BasisChangeMore.
Import BasisChange BasisChangeProofs.

(** A loop that returns has a body that returns on every element. *)
Lemma for_each_Ok_Forall {S A : Type} (body : S → A → result S) (P : A → Prop)
    (l : list A) (s s' : S) :
  (∀ s a s', body s a = Ok s' → P a) →
  for_each body l s = Ok s' → Forall P l.
Proof.
  intros HP. revert s. induction l as [|a l IH]; intros s; cbn [for_each].
  - by constructor.
  - destruct (body s a) as [s1|e] eqn:Ha; cbn; [|done].
    intros Hl. constructor; [by eapply HP | by eapply IH].
Qed.

Section Facts.
Context {gates : StimGates} {helpers : CircuitHelpers}.
Implicit Types (basis : PassBasis) (i : CircuitInstruction) (m : Moment).
Implicit Types (c cur bc : Circuit).

(** ** The assembly of the result *)

(** X1.  The assembly loop does not raise and writes the circuits of the
    moments in order, with one [TICK] between two consecutive moments and
    none after the last; no moment gives the empty circuit.  So the result
    has as many instructions as the moments together, plus one [TICK] per
    moment but the last. *)
Theorem assemble_separates_moments (ms : list Moment) :
  assemble ms = Ok (join_ticks (circuit <$> ms))
  ∧ length (join_ticks (circuit <$> ms))
    = (sum_list (length ∘ circuit <$> ms) + (length ms - 1))%nat.
Proof.
  split; [apply assemble_join_ticks|].
  induction ms as [|m ms IH]; [done|].
  destruct ms as [|m' ms]; [cbn; lia|].
  change (join_ticks (circuit <$> m :: m' :: ms))
    with (circuit m ++ TICK :: join_ticks (circuit <$> m' :: ms)).
  rewrite length_app. cbn [length]. rewrite IH. cbn. lia.
Qed.

(** ** When the pass returns *)

Lemma instruction_step_Ok_supported basis st st' i :
  instruction_step basis st i = Ok st' → supported basis i.
Proof.
  destruct st as [cur bc]. unfold instruction_step, supported.
  intros Hstep Hsel. rewrite Hsel in Hstep. cbn [negb] in Hstep.
  destruct (is_combined_reset_and_measurement_instruction i); [done|].
  split; [done|].
  destruct (_get_instruction_basis i) as [b|e] eqn:Hb; [|done].
  split; [by exists b|]. rewrite (needs_change_selected basis i b Hsel Hb).
  intros Hneed. cbn [mbind result_bind] in Hstep.
  destruct (decide (b = basis)) as [->|Hne].
  { by rewrite bool_decide_eq_true_2 in Hneed. }
  unfold change_accepted. unfold append in Hstep.
  destruct (accepts "H" (targets_copy i) []); [|done].
  cbn [mbind result_bind] in Hstep.
  by destruct (accepts (instruction_name basis) _ _).
Qed.

Lemma inner_loop_Ok_supported basis (l : list CircuitInstruction) st st' :
  for_each (instruction_step basis) l st = Ok st' → Forall (supported basis) l.
Proof.
  apply for_each_Ok_Forall. intros s a s'. apply instruction_step_Ok_supported.
Qed.

Lemma moment_step_Ok_supported basis ret ret' m :
  moment_step basis ret m = Ok ret' → Forall (supported basis) (instructions m).
Proof.
  unfold moment_step. intros Hstep.
  apply bind_Ok in Hstep as (st & Hloop & _).
  by eapply inner_loop_Ok_supported.
Qed.

(** X2.  [_with_basis_changed] returns a circuit exactly when the moment
    iterator ends without exception and every selected instruction of every
    moment is supported: not a combined reset and measurement, with a name
    that has a basis and, when that basis is not the target, with targets
    and arguments that stim accepts for [H] and for the instruction of the
    target basis. *)
Theorem _with_basis_changed_returns_iff basis (c : Circuit) :
  (∃ out, _with_basis_changed basis c = Ok out)
  ↔ (iter_stim_circuit_without_repeat_by_moments c).2 = None
    ∧ Forall (λ m, Forall (supported basis) (instructions m))
             (iter_stim_circuit_without_repeat_by_moments c).1.
Proof.
  unfold _with_basis_changed.
  destruct (iter_stim_circuit_without_repeat_by_moments c) as [ms stopped].
  cbn [fst snd]. split.
  - intros [out Hout]. apply bind_Ok in Hout as (ret & Hloop & Hout).
    split; [by destruct stopped|].
    eapply for_each_Ok_Forall; [|exact Hloop].
    intros s a s'. apply moment_step_Ok_supported.
  - intros [-> Hms]. rewrite outer_loop_supported by done.
    cbn [mbind result_bind]. rewrite assemble_join_ticks. by eexists.
Qed.

(** ** What the inner loop keeps *)

Lemma rewritten_targets basis (l : list CircuitInstruction) :
  (rewritten basis <$> l) ≫= targets_copy = l ≫= targets_copy.
Proof.
  induction l as [|i l IH]; [done|].
  rewrite fmap_cons, !bind_cons, IH. f_equal.
  unfold rewritten. by destruct (needs_change basis i).
Qed.

Lemma hadamard_on_targets (l : list CircuitInstruction) :
  (hadamard_on <$> l) ≫= targets_copy = l ≫= targets_copy.
Proof.
  induction l as [|i l IH]; [done|].
  by rewrite fmap_cons, !bind_cons, IH.
Qed.

(** X3.  When the inner loop returns, the rewritten moment has the targets
    of the instructions of the moment, in the same order; each of its
    instructions has the arguments of an instruction of the moment and the
    name the pass gives to that instruction; the basis-change moment has
    only [H] without arguments, on the targets, in order, of the
    instructions whose basis had to be changed.  Since stim merges
    instructions, the targets are compared as one sequence. *)
Theorem inner_loop_keeps_targets basis (l cur bc : list CircuitInstruction) :
  for_each (instruction_step basis) l ([], []) = Ok (cur, bc) →
  cur ≫= targets_copy = l ≫= targets_copy
  ∧ Forall (λ r, ∃ i, i ∈ l ∧ name r = name (rewritten basis i)
                      ∧ gate_args_copy r = gate_args_copy i) cur
  ∧ bc ≫= targets_copy
    = filter (λ i, needs_change basis i = true) l ≫= targets_copy
  ∧ Forall (λ h, name h = "H" ∧ gate_args_copy h = []) bc.
Proof.
  intros Hloop.
  pose proof (inner_loop_Ok_supported _ _ _ _ Hloop) as Hl.
  rewrite inner_loop_supported in Hloop by done.
  injection Hloop as <- <-.
  split; [|split; [|split]].
  - by rewrite foldl_append_instruction_targets, rewritten_targets.
  - apply foldl_append_instruction_Forall; [|done|].
    + intros a b (i & Hi & Hn & Ha). by exists i.
    + apply Forall_fmap, Forall_forall. intros i Hi. cbn.
      exists i. repeat split; [done|].
      unfold rewritten. by destruct (needs_change basis i).
  - by rewrite foldl_append_instruction_targets, hadamard_on_targets.
  - apply foldl_append_instruction_Forall; [|done|].
    + by intros a b [? ?].
    + by apply Forall_fmap, Forall_forall.
Qed.

(** ** A second pass over a rewritten moment *)

(** X4.  Running the inner loop again on the moment it has rewritten
    returns that moment unchanged and an empty basis-change moment,
    provided no selected instruction of the rewritten moment is a combined
    reset and measurement: a rewritten moment needs no further basis
    change.  Instructions are selected by their name, as the helpers of
    tqec do. *)
Theorem inner_loop_twice basis (l cur bc : list CircuitInstruction) :
  (∀ i j, name i = name j →
          may_have_to_change basis i = may_have_to_change basis j) →
  for_each (instruction_step basis) l ([], []) = Ok (cur, bc) →
  Forall (λ i, may_have_to_change basis i = true →
               is_combined_reset_and_measurement_instruction i = false) cur →
  for_each (instruction_step basis) cur ([], []) = Ok (cur, []).
Proof.
  intros Hname Hloop Hcur.
  pose proof (inner_loop_Ok_supported _ _ _ _ Hloop) as Hl.
  rewrite inner_loop_supported in Hloop by done.
  injection Hloop as <- <-.
  assert (Forall (already_in_basis basis)
                 (foldl append_instruction [] (rewritten basis <$> l))) as Hin.
  { assert (Forall (λ r, ∃ i, i ∈ l ∧ name r = name (rewritten basis i))
                   (foldl append_instruction [] (rewritten basis <$> l))) as Hfrom.
    { apply foldl_append_instruction_Forall; [|done|].
      - intros a b (i & Hi & Hn). by exists i.
      - apply Forall_fmap, Forall_forall. intros i Hi. by exists i. }
    rewrite Forall_forall in Hl, Hcur, Hfrom. apply Forall_forall.
    intros r Hr Hsel. split; [by apply (Hcur r Hr)|].
    destruct (Hfrom r Hr) as (i & Hi & Hn).
    rewrite (_get_instruction_basis_name r (rewritten basis i) Hn).
    rewrite (Hname r (rewritten basis i) Hn) in Hsel.
    unfold rewritten in *. destruct (needs_change basis i) eqn:Hneed.
    - apply _get_instruction_basis_instruction_name.
    - unfold needs_change in Hneed. rewrite Hsel in Hneed. cbn in Hneed.
      apply negb_false_iff in Hneed. unfold in_basis in Hneed.
      destruct (_get_instruction_basis i) as [b|]; [|done].
      by apply bool_decide_eq_true in Hneed as ->. }
  rewrite inner_loop_supported
    by (eapply Forall_impl; [exact Hin | apply already_in_basis_supported]).
  destruct (rewritten_already_in_basis basis _ Hin) as [-> ->].
  cbn [fmap list_fmap foldl]. f_equal. f_equal.
  apply fuse_all_merged_id, fuse_all_merged.
Qed.

(** ** Which exception is raised *)

(** X5.  The first instruction, in the order of the moments and then of
    the instructions of a moment, that is not supported decides the
    exception of [run]: the exception for combined instructions when it is
    a combined reset and measurement, the exception of
    [_get_instruction_basis] when its name has no basis, and the
    [ValueError] of stim otherwise, when the change of its basis is not
    accepted; what comes after it in the circuit plays no role. *)
Theorem run_raises_for_first_unsupported basis (c : Circuit)
    (check_all_flows : bool)
    (ms1 ms2 : list Moment) m (is1 is2 : list CircuitInstruction) i :
  (iter_stim_circuit_without_repeat_by_moments c).1 = ms1 ++ m :: ms2 →
  instructions m = is1 ++ i :: is2 →
  Forall (λ m, Forall (supported basis) (instructions m)) ms1 →
  Forall (supported basis) is1 →
  ¬ supported basis i →
  run basis c check_all_flows
  = Raise (if is_combined_reset_and_measurement_instruction i
           then TQECException (combined_message (name i))
           else if bool_decide (name i ∈ plain_names)
           then ValueError
           else TQECException (unsupported_message (name i))).
Proof.
  intros Hit Hm Hms1 His1 Hi.
  apply (run_first_offender basis c check_all_flows ms1 ms2 m is1 is2 i); try done.
  intros st.
  destruct (may_have_to_change basis i) eqn:Hsel;
    [|exfalso; apply Hi; intros Hsel'; congruence].
  destruct (is_combined_reset_and_measurement_instruction i) eqn:Hcomb.
  { by apply instruction_step_combined. }
  destruct (_get_instruction_basis i) as [b|e] eqn:Hb.
  - rewrite bool_decide_eq_true_2 by by eapply _get_instruction_basis_Ok_plain.
    destruct (decide (b = basis)) as [->|Hne].
    + exfalso. apply Hi. intros _. split; [done|]. split; [by eexists|].
      rewrite (needs_change_selected basis i basis Hsel Hb).
      by rewrite bool_decide_eq_true_2.
    + apply (instruction_step_rejected basis st i b); try done.
      destruct (change_accepted basis i) eqn:Hacc; [|done].
      exfalso. apply Hi. intros _. split; [done|]. split; [by eexists|done].
  - destruct (decide (name i ∈ plain_names)) as [Hin|Hn].
    + exfalso. unfold plain_names in Hin.
      unfold _get_instruction_basis in Hb.
      repeat (apply elem_of_cons in Hin as [Heq | Hin];
              [rewrite Heq in Hb; cbn in Hb; discriminate|]).
      by apply elem_of_nil in Hin.
    + rewrite bool_decide_eq_false_2 by done.
      rewrite (instruction_step_unknown_basis basis st i Hsel Hn).
      by rewrite Hcomb.
Qed.

(** X6.  [_get_instruction_basis] raises exactly for the names other than [M],
    [MZ], [MX], [R], [RZ] and [RX], and its exception names the instruction;
    [M] and [R] are read as the Z basis. *)
Theorem _get_instruction_basis_raises_iff i :
  (_get_instruction_basis i = Raise (TQECException (unsupported_message (name i)))
   ↔ name i ∉ plain_names)
  ∧ (name i ∈ plain_names →
     ∃ b, _get_instruction_basis i = Ok b
          ∧ (b = Measurement MeasurementBasis_Z ↔ name i = "M" ∨ name i = "MZ")
          ∧ (b = Reset ResetBasis_Z ↔ name i = "R" ∨ name i = "RZ")).
Proof.
  split.
  - split; [|apply _get_instruction_basis_unsupported].
    intros Hraise Hin. unfold plain_names in Hin.
    unfold _get_instruction_basis in Hraise.
    repeat (apply elem_of_cons in Hin as [Heq | Hin];
            [rewrite Heq in Hraise; cbn in Hraise; discriminate|]).
    by apply elem_of_nil in Hin.
  - intros Hin. unfold plain_names in Hin. unfold _get_instruction_basis.
    repeat (apply elem_of_cons in Hin as [Heq | Hin];
            [rewrite Heq; cbn; eexists; split; [reflexivity|];
             split; split; intros Hx; try done;
             first [by left | by right | by destruct Hx]|]).
    by apply elem_of_nil in Hin.
Qed.

(** ** The moments of the result *)

Lemma filter_nil_Forall (P : CircuitInstruction → bool) (l : list CircuitInstruction) :
  filter (λ i, P i = true) l = [] ↔ Forall (λ i, P i = false) l.
Proof.
  induction l as [|i l IH]; [by split; [constructor|]|].
  rewrite filter_cons. destruct (P i) eqn:HP.
  - rewrite decide_True by done. split; [done|].
    intros [Hf _]%Forall_cons. congruence.
  - rewrite decide_False by congruence. rewrite IH. split.
    + by constructor.
    + by intros [_ ?]%Forall_cons.
Qed.

(** X7.  When the loop over the moments returns, every moment of the circuit
    has given, in order, its rewritten moment alone when none of its
    instructions had to be changed, and otherwise its rewritten moment and a
    basis-change moment that is not empty: before it for a measurement
    target, after it for a reset target.  The rewritten moment is empty only
    when the moment is: no empty moment is added. *)
Theorem outer_loop_moments basis (ms ret_moments : list Moment) :
  for_each (moment_step basis) ms [] = Ok ret_moments →
  ret_moments = ms ≫= expand basis
  ∧ Forall (λ m,
      (circuit (rewritten_moment basis m) = [] ↔ circuit m = [])
      ∧ (Forall (λ i, needs_change basis i = false) (instructions m) →
         expand basis m = [rewritten_moment basis m])
      ∧ (¬ Forall (λ i, needs_change basis i = false) (instructions m) →
         circuit (hadamard_moment basis m) ≠ []
         ∧ expand basis m
           = if change_measurement_basis basis
             then [hadamard_moment basis m; rewritten_moment basis m]
             else [rewritten_moment basis m; hadamard_moment basis m])) ms.
Proof.
  intros Hloop.
  assert (Forall (λ m, Forall (supported basis) (instructions m)) ms) as Hms.
  { eapply for_each_Ok_Forall; [|exact Hloop].
    intros s a s'. apply moment_step_Ok_supported. }
  rewrite outer_loop_supported in Hloop by done.
  injection Hloop as <-. split; [done|].
  apply Forall_forall. intros m _.
  assert (circuit (hadamard_moment basis m) = []
          ↔ Forall (λ i, needs_change basis i = false) (instructions m)) as Hh.
  { unfold hadamard_moment. cbn [circuit new_Moment].
    rewrite fuse_all_nil, <- filter_nil_Forall.
    split; [apply fmap_nil_inv|by intros ->]. }
  split; [|split].
  - unfold rewritten_moment, instructions. cbn [circuit new_Moment].
    rewrite fuse_all_nil. by destruct (circuit m).
  - intros Hno. apply Hh in Hno. unfold expand. by rewrite Hno.
  - intros Hsome. assert (circuit (hadamard_moment basis m) ≠ []) as Hne.
    { intros Hnil. by apply Hsome, Hh. }
    split; [done|]. unfold expand.
    by destruct (circuit (hadamard_moment basis m)).
Qed.

End Facts.

(** ** On concrete circuits *)

(** [MX 0], [M 1] becomes the single instruction [M 0 1]. *)
Lemma inner_loop_keeps_targets_witness :
  [mkInstruction "M" [qubit 0; qubit 1] []; on "H" 2] ≫= targets_copy
  = [on "MX" 0; on "M" 1; on "H" 2] ≫= targets_copy
  ∧ Forall (λ r, ∃ i, i ∈ [on "MX" 0; on "M" 1; on "H" 2]
                      ∧ name r = name (rewritten (Measurement MeasurementBasis_Z) i)
                      ∧ gate_args_copy r = gate_args_copy i)
           [mkInstruction "M" [qubit 0; qubit 1] []; on "H" 2]
  ∧ [on "H" 0] ≫= targets_copy
    = filter (λ i, needs_change (Measurement MeasurementBasis_Z) i = true)
             [on "MX" 0; on "M" 1; on "H" 2] ≫= targets_copy
  ∧ Forall (λ h, name h = "H" ∧ gate_args_copy h = []) [on "H" 0].
Proof.
  apply (inner_loop_keeps_targets (Measurement MeasurementBasis_Z)
           [on "MX" 0; on "M" 1; on "H" 2]
           [mkInstruction "M" [qubit 0; qubit 1] []; on "H" 2] [on "H" 0]).
  reflexivity.
Defined.

Lemma inner_loop_twice_witness :
  for_each (instruction_step (Measurement MeasurementBasis_Z))
           [mkInstruction "M" [qubit 0; qubit 1] []; on "H" 2] ([], [])
  = Ok ([mkInstruction "M" [qubit 0; qubit 1] []; on "H" 2], []).
Proof.
  apply (inner_loop_twice (Measurement MeasurementBasis_Z)
           [on "MX" 0; on "M" 1; on "H" 2]
           [mkInstruction "M" [qubit 0; qubit 1] []; on "H" 2] [on "H" 0]).
  - intros i j Hn. unfold may_have_to_change. cbn. unfold name_in.
    by rewrite Hn.
  - reflexivity.
  - repeat (apply Forall_cons_2; [intros _; reflexivity|]). apply Forall_nil_2.
Defined.

(** [H] cannot be applied to the inverted target of [MX !0]: the pass
    raises the [ValueError] of stim, whatever follows. *)
Lemma run_raises_for_first_unsupported_witness :
  run (Measurement MeasurementBasis_Z)
      [mkInstruction "MX" [inverted 0] []; TICK; on "MY" 1] false
  = Raise ValueError.
Proof.
  rewrite (run_raises_for_first_unsupported (Measurement MeasurementBasis_Z)
             [mkInstruction "MX" [inverted 0] []; TICK; on "MY" 1] false
             [] [new_Moment [on "MY" 1] None]
             (new_Moment [mkInstruction "MX" [inverted 0] []] None)
             [] [] (mkInstruction "MX" [inverted 0] [])).
  - reflexivity.
  - reflexivity.
  - reflexivity.
  - apply Forall_nil_2.
  - apply Forall_nil_2.
  - intros Hs. destruct (Hs eq_refl) as (_ & _ & Hacc).
    specialize (Hacc eq_refl). discriminate Hacc.
Defined.

Lemma outer_loop_moments_witness :
  [new_Moment [on "H" 0] None; new_Moment [on "M" 0] (Some [0]);
   new_Moment [on "M" 1] (Some [1])]
  = moments_from [] [on "MX" 0; TICK; on "M" 1]
      ≫= expand (Measurement MeasurementBasis_Z)
  ∧ Forall (λ m,
      (circuit (rewritten_moment (Measurement MeasurementBasis_Z) m) = []
       ↔ circuit m = [])
      ∧ (Forall (λ i, needs_change (Measurement MeasurementBasis_Z) i = false)
                (instructions m) →
         expand (Measurement MeasurementBasis_Z) m
         = [rewritten_moment (Measurement MeasurementBasis_Z) m])
      ∧ (¬ Forall (λ i, needs_change (Measurement MeasurementBasis_Z) i = false)
                  (instructions m) →
         circuit (hadamard_moment (Measurement MeasurementBasis_Z) m) ≠ []
         ∧ expand (Measurement MeasurementBasis_Z) m
           = if change_measurement_basis (Measurement MeasurementBasis_Z)
             then [hadamard_moment (Measurement MeasurementBasis_Z) m;
                   rewritten_moment (Measurement MeasurementBasis_Z) m]
             else [rewritten_moment (Measurement MeasurementBasis_Z) m;
                   hadamard_moment (Measurement MeasurementBasis_Z) m]))
      (moments_from [] [on "MX" 0; TICK; on "M" 1]).
Proof.
  apply (outer_loop_moments (Measurement MeasurementBasis_Z)).
  reflexivity.
Defined.

End BasisChangeMore.

(** * Properties of the scheduled measurement-basis pass *)
Module ChangeMeasurementBasisPassProofs.
Import BasisChange ChangeMeasurementBasisPass.

(** X8.  Every transformation of the pass puts one [H] at the schedule offset -1,
    before the measurement, and one measurement of the target basis at the
    offset 0 of the measurement it replaces, and nothing at another offset;
    it never replaces the measurement of the target basis itself. *)
Theorem transformations_put_hadamard_before (basis : Basis.t)
    (t : ScheduledCircuitTransformation) :
  t ∈ __init__ basis →
  transformation t !! (-1) = Some [mkInstructionCreator "H"]
  ∧ transformation t !! 0
    = Some [mkInstructionCreator ("M" +:+ Basis.value basis)]
  ∧ dom (transformation t) = {[ -1; 0 ]}
  ∧ source_name t ≠ "M" +:+ Basis.value basis.
Proof.
  destruct basis; cbn; intros Hin;
    repeat (apply elem_of_cons in Hin as [-> | Hin];
            [cbn; repeat split; try done;
             rewrite dom_insert_L, dom_singleton_L; set_solver|]);
    by apply elem_of_nil in Hin.
Qed.

(** X9.  The pass replaces exactly the measurements that [ChangeBasisPass] would
    rename for the same target: an instruction name is the source of a
    transformation exactly when [_get_instruction_basis] reads it as a
    measurement basis other than the target. *)
Theorem transformations_sources_agree (basis : Basis.t) (nm : string)
    (targets : list GateTarget) (args : list Q) :
  (∃ t, t ∈ __init__ basis ∧ source_name t = nm)
  ↔ ∃ b, _get_instruction_basis (mkInstruction nm targets args)
         = Ok (Measurement b)
         ∧ b ≠ measurement_basis_of basis.
Proof.
  split.
  - intros (t & Hin & <-).
    destruct basis; cbn in Hin;
      repeat (apply elem_of_cons in Hin as [-> | Hin];
              [cbn; eexists; split; [reflexivity|done]|]);
      by apply elem_of_nil in Hin.
  - intros (b & Hb & Hne). unfold _get_instruction_basis in Hb. cbn in Hb.
    destruct (nm =? "M")%string eqn:HM.
    { apply String.eqb_eq in HM as ->. injection Hb as <-.
      destruct basis; [|done]. eexists. split;
        [apply list_elem_of_lookup; exists 1%nat; reflexivity | reflexivity]. }
    destruct (nm =? "MZ")%string eqn:HMZ.
    { apply String.eqb_eq in HMZ as ->. injection Hb as <-.
      destruct basis; [|done]. eexists. split;
        [apply list_elem_of_lookup; exists 0%nat; reflexivity | reflexivity]. }
    cbn in Hb.
    destruct (nm =? "MX")%string eqn:HMX.
    { apply String.eqb_eq in HMX as ->. injection Hb as <-.
      destruct basis; [done|]. eexists. split;
        [apply list_elem_of_lookup; exists 0%nat; reflexivity | reflexivity]. }
    destruct ((nm =? "R")%string || (nm =? "RZ")%string); [done|].
    by destruct (nm =? "RX")%string.
Qed.

Lemma transformations_put_hadamard_before_witness :
  transformation (mkScheduledCircuitTransformation "M"
                    {[ -1 := [mkInstructionCreator "H"];
                       0 := [mkInstructionCreator "MX"] ]}) !! (-1)
  = Some [mkInstructionCreator "H"]
  ∧ transformation (mkScheduledCircuitTransformation "M"
                      {[ -1 := [mkInstructionCreator "H"];
                         0 := [mkInstructionCreator "MX"] ]}) !! 0
    = Some [mkInstructionCreator ("M" +:+ Basis.value Basis.X)]
  ∧ dom (transformation (mkScheduledCircuitTransformation "M"
                           {[ -1 := [mkInstructionCreator "H"];
                              0 := [mkInstructionCreator "MX"] ]}))
    = {[ -1; 0 ]}
  ∧ source_name (mkScheduledCircuitTransformation "M"
                   {[ -1 := [mkInstructionCreator "H"];
                      0 := [mkInstructionCreator "MX"] ]})
    ≠ "M" +:+ Basis.value Basis.X.
Proof.
  apply (transformations_put_hadamard_before Basis.X).
  apply list_elem_of_lookup. by exists 1%nat.
Defined.

End ChangeMeasurementBasisPassProofs.

(** * Further properties of the base builders *)
Module BuildersMore.
Import Builders BaseSubstitutionBuilder SpatialPipes BuildersProofs.

Section Facts.
Context `{TemplateLibrary}.
Implicit Types (spec : PipeSpec).

(** ** The block builder *)

(** X10.  For a [ZXCube] the block builder returns a block of three layers: the
    first with the reset in the basis of the cube on Z, the last with the
    measurement in that basis, the middle one with neither.  A regular cube
    is built on the memory template with the orientation of its basis on X,
    a spatial junction on the junction template with its arms. *)
Theorem block_builder_zx_cube (bx by_ bz : Basis.t) (arms : JunctionArms.t) :
  BaseBlockBuilder.__call__ (mkCubeSpec (ZXCube bx by_ bz) arms)
  = if is_spatial_junction (mkCubeSpec (ZXCube bx by_ bz) arms)
    then
      Ok (mkCompiledBlock get_spatial_junction_qubit_raw_template
            (layer_of <$>
               [get_spatial_junction_qubit_rpng_descriptions bx arms (Some bz) None;
                get_spatial_junction_qubit_rpng_descriptions bx arms None None;
                get_spatial_junction_qubit_rpng_descriptions bx arms None (Some bz)]))
    else
      Ok (mkCompiledBlock get_memory_qubit_raw_template
            (layer_of <$>
               [get_memory_qubit_rpng_descriptions (orientation_of bx) (Some bz) None;
                get_memory_qubit_rpng_descriptions (orientation_of bx) None None;
                get_memory_qubit_rpng_descriptions (orientation_of bx) None (Some bz)])).
Proof.
  unfold BaseBlockBuilder.__call__, BaseBlockBuilder._get_template_and_plaquettes.
  cbn [kind as_tuple junction_arms].
  destruct (is_spatial_junction _); cbn; [done|]. by destruct bx.
Qed.

(** X11.  The block builder raises only for a [Port] and for a [YCube]; the
    assertion on the kind of the cube never fails. *)
Theorem block_builder_exceptions (spec : CubeSpec) (e : Exception) :
  BaseBlockBuilder.__call__ spec = Raise e →
  (kind spec = Port ∧ e = TQECException "Cannot build a block for a Port.")
  ∨ (kind spec = YCube ∧ e = NotImplementedError "Y cube is not implemented.").
Proof.
  destruct spec as [[bx by_ bz| |] arms].
  - rewrite block_builder_zx_cube. by destruct (is_spatial_junction _).
  - intros [= <-]. by left.
  - intros [= <-]. by right.
Qed.

(** ** The spatial builders as one loop *)

Lemma spatial_call_loop spec :
  is_spatial (pipe_kind spec) = true →
  is_spatial_junction (cube_specs spec).2 = false →
  BaseSubstitutionBuilder.__call__ spec
  = match spatial_descriptions spec with
    | None => Raise AssertionError
    | Some descriptions =>
        st ← for_each (layer_step descriptions (spatial_mappings spec))
                      (layers_of spec) (∅, ∅);
        Ok (mkSubstitution st.1 st.2)
    end.
Proof.
  intros Hs H2.
  unfold BaseSubstitutionBuilder.__call__, get_spatial_pipe_substitution.
  rewrite (spatial_not_temporal _ Hs), Hs. cbn [assert mbind result_bind].
  unfold spatial_descriptions, spatial_mappings, pipe_template_of, first_arm,
    layers_of.
  destruct (is_spatial_junction (cube_specs spec).1) eqn:H1.
  - unfold _get_spatial_junction_pipe_substitution, _get_spatial_junction_arm,
      _get_plaquette_indices_mapping.
    rewrite Hs, H1, H2. cbn [assert orb andb mbind result_bind].
    unfold is_spatial, is_temporal, direction in *.
    destruct (x (pipe_kind spec)) as [bx|], (y (pipe_kind spec)) as [by_|];
      try done; cbn -[for_each layer_step enumerate];
      match goal with
      | |- context [for_each ?b ?l ?s] => by destruct (for_each b l s) as [[? ?]|]
      end.
  - unfold _get_spatial_regular_pipe_substitution.
    rewrite H1, H2. cbn [assert negb andb mbind result_bind].
    unfold is_spatial, is_temporal, direction in *.
    destruct (x (pipe_kind spec)) as [bx|], (y (pipe_kind spec)) as [by_|];
      try done; cbn -[for_each layer_step enumerate];
      match goal with
      | |- context [for_each ?b ?l ?s] => by destruct (for_each b l s) as [[? ?]|]
      end.
Qed.

(** ** Renaming the indices of a layer *)

Lemma rename_loop {V : Type} (f : Z → result Z) (l : list (Z * V))
    (acc acc' : gmap Z V) :
  for_each (λ (acc : gmap Z V) (kv : Z * V), k ← f kv.1; Ok (<[k := kv.2]> acc))
           l acc = Ok acc' →
  (∀ k' v, acc' !! k' = Some v →
     acc !! k' = Some v ∨ ∃ k, (k, v) ∈ l ∧ f k = Ok k')
  ∧ (∀ k v, (k, v) ∈ l → ∃ k', f k = Ok k' ∧ is_Some (acc' !! k'))
  ∧ (∀ k', is_Some (acc !! k') → is_Some (acc' !! k')).
Proof.
  revert acc. induction l as [|[k0 v0] l IH]; intros acc; cbn [for_each].
  - intros [= <-]. split; [by left|]. split; [|done].
    intros k v Hin. by apply elem_of_nil in Hin.
  - intros Hloop. apply bind_Ok in Hloop as (acc1 & Hstep & Hloop).
    apply bind_Ok in Hstep as (k1 & Hk1 & Hstep). cbn in Hk1, Hstep.
    injection Hstep as <-.
    destruct (IH _ Hloop) as (IH1 & IH2 & IH3). split; [|split].
    + intros k' v Hk'. destruct (IH1 k' v Hk') as [Hacc | (k & Hin & Hk)].
      * destruct (decide (k1 = k')) as [->|Hne].
        -- rewrite lookup_insert_eq in Hacc. injection Hacc as ->.
           right. exists k0. split; [by left|done].
        -- rewrite lookup_insert_ne in Hacc by done. by left.
      * right. exists k. split; [by right|done].
    + intros k v Hin. apply elem_of_cons in Hin as [[= -> ->] | Hin].
      * exists k1. split; [done|]. apply IH3. by rewrite lookup_insert_eq.
      * by apply (IH2 k v).
    + intros k' Hk'. apply IH3.
      destruct (decide (k1 = k')) as [->|Hne].
      * by rewrite lookup_insert_eq.
      * by rewrite lookup_insert_ne.
Qed.

Lemma map_keys_Ok {V : Type} (f : Z → result Z) (d d' : FrozenDefaultDict V) :
  map_keys f d = Ok d' →
  default_value d' = default_value d
  ∧ (∀ k' v, items d' !! k' = Some v → ∃ k, items d !! k = Some v ∧ f k = Ok k')
  ∧ (∀ k v, items d !! k = Some v → ∃ k', f k = Ok k' ∧ is_Some (items d' !! k')).
Proof.
  unfold map_keys. intros Hmap. apply bind_Ok in Hmap as (new_items & Hloop & Hmap).
  injection Hmap as <-. cbn [items default_value].
  destruct (rename_loop f _ _ _ Hloop) as (H1 & H2 & _).
  split; [done|]. split.
  - intros k' v Hk'. destruct (H1 k' v Hk') as [Hempty | (k & Hin & Hk)]; [done|].
    exists k. split; [by apply elem_of_map_to_list|done].
  - intros k v Hk. apply (H2 k v). by apply elem_of_map_to_list.
Qed.

(** An exception of the renaming is the [KeyError] of an index that the
    mapping does not have. *)
Lemma map_keys_getitem_error {V : Type} (mapping : gmap Z Z)
    (d : FrozenDefaultDict V) (e : Exception) :
  map_keys (λ i, getitem mapping i) d = Raise e →
  ∃ k, e = KeyError k ∧ is_Some (items d !! k) ∧ mapping !! k = None.
Proof.
  unfold map_keys.
  destruct (for_each _ _ _) as [new_items|e'] eqn:Hloop; [done|].
  intros [= <-]. apply for_each_error in Hloop as (acc & [k v] & Hin & Hstep).
  cbn in Hstep. unfold getitem in Hstep.
  destruct (mapping !! k) eqn:Hk; [done|]. injection Hstep as <-.
  exists k. split; [done|]. split; [|done].
  apply elem_of_map_to_list in Hin. by exists v.
Qed.

Lemma map_keys_getitem_raises {V : Type} (mapping : gmap Z Z)
    (d : FrozenDefaultDict V) (k : Z) :
  is_Some (items d !! k) → mapping !! k = None →
  raises (map_keys (λ i, getitem mapping i) d).
Proof.
  intros [v Hv] Hk. unfold map_keys.
  destruct (for_each_raises
              (λ (acc : gmap Z V) (kv : Z * V),
                 k ← getitem mapping kv.1; Ok (<[k := kv.2]> acc))
              (map_to_list (items d)) (k, v)) with (s := (∅ : gmap Z V))
    as [e He].
  - by apply elem_of_map_to_list.
  - intros acc. cbn. unfold getitem. rewrite Hk. by eexists.
  - rewrite He. by eexists.
Qed.

Lemma getitem_to (border other : list Z) (i j : Z) :
  to border other !! i = Some j → i ∈ border ∧ j ∈ other.
Proof.
  unfold to. intros Hij. apply elem_of_list_to_map_2 in Hij.
  split; [by eapply elem_of_zip_l | by eapply elem_of_zip_r].
Qed.

Lemma layer_of_entries (descriptions : FrozenDefaultDict RPNGDescription)
    (mapping : gmap Z Z) (p : FrozenDefaultDict Plaquette) :
  map_keys (λ i, getitem mapping i) (map_values _get_plaquette descriptions) = Ok p →
  entries_from descriptions mapping (mkPlaquettes p).
Proof.
  intros Hmap. apply map_keys_Ok in Hmap as (Hdef & Hfrom & Hto).
  unfold entries_from. cbn [collection]. split; [done|]. split.
  - intros index plaquette Hp. destruct (Hfrom _ _ Hp) as (k & Hk & Hget).
    cbn in Hk. rewrite lookup_fmap in Hk.
    destruct (items descriptions !! k) as [d|] eqn:Hd; [|done].
    injection Hk as <-. exists k, d. split; [done|]. split; [|done].
    unfold getitem in Hget. destruct (mapping !! k); [|done]. by injection Hget as ->.
  - intros index0 d Hd.
    destruct (Hto index0 (_get_plaquette d)) as (k' & Hget & Hk').
    { cbn. by rewrite lookup_fmap, Hd. }
    exists k'. split; [|done].
    unfold getitem in Hget. destruct (mapping !! index0); [|done].
    by injection Hget as ->.
Qed.

(** One step of the loop over the layers sets the layer on both sides. *)
Lemma layer_step_Ok descriptions mappings
    (st st' : gmap Z Plaquettes * gmap Z Plaquettes)
    (k : Z) (r m : option Basis.t) :
  layer_step descriptions mappings st (k, (r, m)) = Ok st' →
  ∃ p q, st'.1 = <[k := p]> st.1 ∧ st'.2 = <[k := q]> st.2
         ∧ entries_from (descriptions r m) mappings.1 p
         ∧ entries_from (descriptions r m) mappings.2 q.
Proof.
  destruct st as [s1 s2]. unfold layer_step. intros Hstep.
  apply bind_Ok in Hstep as (p & Hp & Hstep).
  apply bind_Ok in Hstep as (q & Hq & Hstep). injection Hstep as <-.
  exists (mkPlaquettes p), (mkPlaquettes q). cbn [fst snd].
  split; [done|]. split; [done|]. split; by apply layer_of_entries.
Qed.

Lemma layer_step_error descriptions mappings
    (st : gmap Z Plaquettes * gmap Z Plaquettes)
    (layer : Z * (option Basis.t * option Basis.t)) (e : Exception) :
  layer_step descriptions mappings st layer = Raise e →
  ∃ k, e = KeyError k ∧ (mappings.1 !! k = None ∨ mappings.2 !! k = None).
Proof.
  destruct st as [s1 s2], layer as [k [r m]]. unfold layer_step.
  destruct (map_keys (λ i, getitem mappings.1 i) _) as [p|e1] eqn:Hp;
    cbn [mbind result_bind].
  - destruct (map_keys (λ i, getitem mappings.2 i) _) as [q|e2] eqn:Hq;
      cbn [mbind result_bind]; [done|].
    intros [= <-]. apply map_keys_getitem_error in Hq as (k' & -> & _ & Hk').
    exists k'. eauto.
  - intros [= <-]. apply map_keys_getitem_error in Hp as (k' & -> & _ & Hk').
    exists k'. eauto.
Qed.

(** ** The layers of a spatial substitution *)

Lemma second_junction_raises spec :
  is_spatial (pipe_kind spec) = true →
  is_spatial_junction (cube_specs spec).2 = true →
  BaseSubstitutionBuilder.__call__ spec
  = Raise (if is_spatial_junction (cube_specs spec).1
           then TQECException
                  "Found 2 spatial junctions connected. This is not supported yet."
           else AssertionError).
Proof.
  intros Hs H2.
  unfold BaseSubstitutionBuilder.__call__, get_spatial_pipe_substitution,
    _get_spatial_junction_pipe_substitution, _get_spatial_regular_pipe_substitution.
  rewrite (spatial_not_temporal _ Hs), Hs, H2.
  by destruct (is_spatial_junction (cube_specs spec).1).
Qed.

Lemma spatial_layers_exact spec (s : Substitution) :
  is_spatial (pipe_kind spec) = true →
  BaseSubstitutionBuilder.__call__ spec = Ok s →
  ∃ descriptions p0 p1 p2 q0 q1 q2,
    spatial_descriptions spec = Some descriptions
    ∧ src s = <[2 := p2]> (<[1 := p1]> (<[0 := p0]> ∅))
    ∧ dst s = <[2 := q2]> (<[1 := q1]> (<[0 := q0]> ∅))
    ∧ entries_from (descriptions (z (pipe_kind spec)) None) (spatial_mappings spec).1 p0
    ∧ entries_from (descriptions (z (pipe_kind spec)) None) (spatial_mappings spec).2 q0
    ∧ entries_from (descriptions None None) (spatial_mappings spec).1 p1
    ∧ entries_from (descriptions None None) (spatial_mappings spec).2 q1
    ∧ entries_from (descriptions None (z (pipe_kind spec))) (spatial_mappings spec).1 p2
    ∧ entries_from (descriptions None (z (pipe_kind spec))) (spatial_mappings spec).2 q2.
Proof.
  intros Hs Hcall.
  destruct (is_spatial_junction (cube_specs spec).2) eqn:H2.
  { rewrite second_junction_raises in Hcall by done. done. }
  rewrite spatial_call_loop in Hcall by done.
  destruct (spatial_descriptions spec) as [descriptions|]; [|done].
  apply bind_Ok in Hcall as (st & Hloop & Hcall). injection Hcall as <-.
  unfold layers_of in Hloop. cbn [enumerate imap for_each] in Hloop.
  apply bind_Ok in Hloop as (st0 & Hstep0 & Hloop).
  apply bind_Ok in Hloop as (st1 & Hstep1 & Hloop).
  apply bind_Ok in Hloop as (st2 & Hstep2 & Hloop).
  injection Hloop as <-.
  apply layer_step_Ok in Hstep0 as (p0 & q0 & Hp0 & Hq0 & Hep0 & Heq0).
  apply layer_step_Ok in Hstep1 as (p1 & q1 & Hp1 & Hq1 & Hep1 & Heq1).
  apply layer_step_Ok in Hstep2 as (p2 & q2 & Hp2 & Hq2 & Hep2 & Heq2).
  exists descriptions, p0, p1, p2, q0, q1, q2. cbn [src dst fst snd] in *.
  rewrite Hp2, Hq2, Hp1, Hq1, Hp0, Hq0. by repeat (split; [done|]).
Qed.

(** X12.  A substitution returned for a spatial pipe has, at each of the layers 0,
    1 and 2 and on each side, the descriptions of the pipe for that layer,
    compiled, at the indices the border mapping of that side gives them.
    The first layer is described with the reset in the basis of the pipe on
    Z and no measurement, the middle layer with neither, the last layer with
    the measurement in that basis and no reset. *)
Theorem spatial_substitution_layers spec (s : Substitution) :
  is_spatial (pipe_kind spec) = true →
  BaseSubstitutionBuilder.__call__ spec = Ok s →
  ∃ descriptions,
    spatial_descriptions spec = Some descriptions
    ∧ ∀ k r m, (k, (r, m)) ∈ layers_of spec →
        ∃ p q, src s !! k = Some p ∧ dst s !! k = Some q
               ∧ entries_from (descriptions r m) (spatial_mappings spec).1 p
               ∧ entries_from (descriptions r m) (spatial_mappings spec).2 q.
Proof.
  intros Hs Hcall.
  destruct (spatial_layers_exact spec s Hs Hcall)
    as (D & p0 & p1 & p2 & q0 & q1 & q2 & HD & -> & -> & E).
  exists D. split; [done|]. intros k r m Hin.
  unfold layers_of in Hin. cbn [enumerate imap] in Hin.
  repeat (apply elem_of_cons in Hin as [[= -> -> ->] | Hin];
          [eexists _, _; split; [by simplify_map_eq|];
           split; [by simplify_map_eq|]; tauto|]).
  by apply elem_of_nil in Hin.
Qed.

(** X13.  A substitution returned for a spatial pipe overrides, in the first cube,
    only indices of the border that faces the pipe (RIGHT along X, TOP along
    Y) and, in the second cube, only indices of the border that faces the
    pipe (LEFT along X, BOTTOM along Y). *)
Theorem spatial_substitution_on_facing_borders spec (s : Substitution)
    (k index : Z) (p : Plaquettes) :
  is_spatial (pipe_kind spec) = true →
  BaseSubstitutionBuilder.__call__ spec = Ok s →
  (src s !! k = Some p → is_Some (items (collection p) !! index) →
   index ∈ get_border_indices (cube_templates spec).1
             (facing_borders (direction (pipe_kind spec))).1.2)
  ∧ (dst s !! k = Some p → is_Some (items (collection p) !! index) →
     index ∈ get_border_indices (cube_templates spec).2
               (facing_borders (direction (pipe_kind spec))).2.2).
Proof.
  intros Hs Hcall.
  destruct (spatial_layers_exact spec s Hs Hcall)
    as (D & p0 & p1 & p2 & q0 & q1 & q2 & HD & -> & -> & E).
  assert (∀ descriptions (p' : Plaquettes),
            entries_from descriptions (spatial_mappings spec).1 p' →
            is_Some (items (collection p') !! index) →
            index ∈ get_border_indices (cube_templates spec).1
                      (facing_borders (direction (pipe_kind spec))).1.2) as Hfirst.
  { intros d p' (_ & Hfrom & _) [v Hv].
    destruct (Hfrom _ _ Hv) as (i0 & d0 & _ & Hmap & _).
    unfold spatial_mappings in Hmap. cbn [fst] in Hmap.
    by apply getitem_to in Hmap as [_ ?]. }
  assert (∀ descriptions (p' : Plaquettes),
            entries_from descriptions (spatial_mappings spec).2 p' →
            is_Some (items (collection p') !! index) →
            index ∈ get_border_indices (cube_templates spec).2
                      (facing_borders (direction (pipe_kind spec))).2.2) as Hsecond.
  { intros d p' (_ & Hfrom & _) [v Hv].
    destruct (Hfrom _ _ Hv) as (i0 & d0 & _ & Hmap & _).
    unfold spatial_mappings in Hmap. cbn [snd] in Hmap.
    by apply getitem_to in Hmap as [_ ?]. }
  destruct E as (E0 & F0 & E1 & F1 & E2 & F2).
  split; intros Hk Hi.
  - destruct (decide (k = 2)) as [->|]; [simplify_map_eq; eauto|].
    destruct (decide (k = 1)) as [->|]; [simplify_map_eq; eauto|].
    destruct (decide (k = 0)) as [->|]; [simplify_map_eq; eauto|].
    by simplify_map_eq.
  - destruct (decide (k = 2)) as [->|]; [simplify_map_eq; eauto|].
    destruct (decide (k = 1)) as [->|]; [simplify_map_eq; eauto|].
    destruct (decide (k = 0)) as [->|]; [simplify_map_eq; eauto|].
    by simplify_map_eq.
Qed.

(** ** Exceptions of the substitution builder *)

(** The substitution of a temporal pipe, by its basis on X and its Hadamard
    flag. *)
Lemma temporal_call spec :
  is_temporal (pipe_kind spec) = true →
  ∃ b, x (pipe_kind spec) = Some b
       ∧ BaseSubstitutionBuilder.__call__ spec
         = Ok (if has_hadamard (pipe_kind spec)
               then mkSubstitution
                      {[ -1 := layer_of (get_temporal_hadamard_rpng_descriptions
                                           (orientation_of b)) ]}
                      {[ 0 := layer_of (get_memory_qubit_rpng_descriptions
                                          (rotated (orientation_of b)) None None) ]}
               else mkSubstitution
                      {[ -1 := layer_of (get_memory_qubit_rpng_descriptions
                                           (orientation_of b) None None) ]}
                      {[ 0 := layer_of (get_memory_qubit_rpng_descriptions
                                          (orientation_of b) None None) ]}).
Proof.
  intros Ht. destruct (temporal_x_basis _ Ht) as [b Hb]. exists b. split; [done|].
  unfold BaseSubstitutionBuilder.__call__, get_temporal_pipe_substitution,
    _get_temporal_hadamard_pipe_substitution,
    _get_temporal_non_hadamard_pipe_substitution, get_basis_along.
  rewrite Ht, Hb. destruct (has_hadamard (pipe_kind spec)); by destruct b.
Qed.

(** X14.  The substitution builder raises only for a spatial pipe, and then one of
    three exceptions: the [TQECException] for two junctions when both
    endpoints are spatial junctions; [AssertionError] when the second
    endpoint only is a spatial junction, or when the first is one and the
    pipe has a basis neither on X nor on Y; the [KeyError] of a plaquette
    index that a border mapping does not have.  The exceptions of its
    defensive branches on the direction Z are never raised. *)
Theorem substitution_builder_exceptions spec (e : Exception) :
  BaseSubstitutionBuilder.__call__ spec = Raise e →
  is_spatial (pipe_kind spec) = true
  ∧ ((e = TQECException
            "Found 2 spatial junctions connected. This is not supported yet."
      ∧ is_spatial_junction (cube_specs spec).1 = true
      ∧ is_spatial_junction (cube_specs spec).2 = true)
     ∨ (e = AssertionError
        ∧ (is_spatial_junction (cube_specs spec).1 = false
           ∧ is_spatial_junction (cube_specs spec).2 = true
           ∨ is_spatial_junction (cube_specs spec).1 = true
             ∧ x (pipe_kind spec) = None ∧ y (pipe_kind spec) = None))
     ∨ (∃ k, e = KeyError k
             ∧ ((spatial_mappings spec).1 !! k = None
                ∨ (spatial_mappings spec).2 !! k = None))).
Proof.
  intros Hcall.
  destruct (is_temporal (pipe_kind spec)) eqn:Ht.
  { destruct (temporal_call spec Ht) as (b & _ & Hok). congruence. }
  assert (is_spatial (pipe_kind spec) = true) as Hs.
  { unfold is_spatial. by rewrite Ht. }
  split; [done|].
  destruct (is_spatial_junction (cube_specs spec).2) eqn:H2.
  { rewrite second_junction_raises in Hcall by done.
    destruct (is_spatial_junction (cube_specs spec).1); injection Hcall as <-.
    - by left.
    - right. left. split; [done|]. by left. }
  rewrite spatial_call_loop in Hcall by done.
  destruct (spatial_descriptions spec) as [descriptions|] eqn:HD.
  - destruct (for_each _ _ _) as [st|e'] eqn:Hloop; [done|].
    injection Hcall as <-.
    apply for_each_error in Hloop as (st & layer & _ & Hstep).
    apply layer_step_error in Hstep. right. by right.
  - injection Hcall as <-. right. left. split; [done|]. right.
    unfold spatial_descriptions in HD.
    destruct (is_spatial_junction (cube_specs spec).1).
    + split; [done|].
      destruct (x (pipe_kind spec)); [done|].
      by destruct (y (pipe_kind spec)).
    + by destruct (direction (pipe_kind spec)).
Qed.

(** X15.  For a spatial pipe whose second endpoint is not a spatial junction,
    a plaquette index of the descriptions of the first layer that the border
    mapping to the first cube does not have makes the builder raise
    [KeyError] for an index missing from that mapping. *)
Theorem spatial_missing_index_raises spec
    (descriptions : option Basis.t → option Basis.t →
                    FrozenDefaultDict RPNGDescription) (k : Z) :
  is_spatial (pipe_kind spec) = true →
  is_spatial_junction (cube_specs spec).2 = false →
  spatial_descriptions spec = Some descriptions →
  is_Some (items (descriptions (z (pipe_kind spec)) None) !! k) →
  (spatial_mappings spec).1 !! k = None →
  ∃ k', BaseSubstitutionBuilder.__call__ spec = Raise (KeyError k')
        ∧ (spatial_mappings spec).1 !! k' = None.
Proof.
  intros Hs H2 HD [d Hd] Hk.
  rewrite spatial_call_loop, HD by done.
  unfold layers_of. cbn [enumerate imap for_each].
  assert (∃ k', layer_step descriptions (spatial_mappings spec) (∅, ∅)
                  (Z.of_nat 0, (z (pipe_kind spec), None)) = Raise (KeyError k')
                ∧ (spatial_mappings spec).1 !! k' = None) as (k' & -> & Hk').
  { unfold layer_step.
    destruct (map_keys (λ i, getitem (spatial_mappings spec).1 i) _)
      as [p|e] eqn:Hmap.
    - exfalso.
      destruct (map_keys_getitem_raises (spatial_mappings spec).1
                  (map_values _get_plaquette
                     (descriptions (z (pipe_kind spec)) None)) k) as [e He].
      + cbn. rewrite lookup_fmap, Hd. by eexists.
      + done.
      + congruence.
    - apply map_keys_getitem_error in Hmap as (k' & -> & _ & Hk').
      by exists k'. }
  by exists k'.
Qed.

(** ** Temporal pipes *)

(** X16.  The substitution of a temporal pipe depends only on the basis of the
    pipe on X and on its Hadamard flag: the cubes at its ends, their
    templates and the other bases of the pipe play no role. *)
Theorem temporal_substitution_depends_on_x spec spec' :
  is_temporal (pipe_kind spec) = true →
  is_temporal (pipe_kind spec') = true →
  x (pipe_kind spec) = x (pipe_kind spec') →
  has_hadamard (pipe_kind spec) = has_hadamard (pipe_kind spec') →
  BaseSubstitutionBuilder.__call__ spec = BaseSubstitutionBuilder.__call__ spec'
  ∧ ∃ s, BaseSubstitutionBuilder.__call__ spec = Ok s.
Proof.
  intros Ht Ht' Hx Hh.
  destruct (temporal_call spec Ht) as (b & Hb & ->).
  destruct (temporal_call spec' Ht') as (b' & Hb' & ->).
  rewrite Hx, Hb' in Hb. injection Hb as ->. rewrite Hh.
  split; [done|]. by eexists.
Qed.

(** X17.  After a Hadamard pipe the later cube is overridden exactly as after a
    temporal pipe without Hadamard of the flipped basis on X, and before it
    the earlier cube is overridden in the orientation a pipe without
    Hadamard of the same basis would use. *)
Theorem hadamard_destination_is_flipped_memory spec spec' (b : Basis.t) :
  is_temporal (pipe_kind spec) = true →
  is_temporal (pipe_kind spec') = true →
  has_hadamard (pipe_kind spec) = true →
  has_hadamard (pipe_kind spec') = false →
  x (pipe_kind spec) = Some b →
  x (pipe_kind spec') = Some (flipped b) →
  ∃ s s', BaseSubstitutionBuilder.__call__ spec = Ok s
          ∧ BaseSubstitutionBuilder.__call__ spec' = Ok s'
          ∧ dst s = dst s'
          ∧ src s = {[ -1 := layer_of (get_temporal_hadamard_rpng_descriptions
                                         (orientation_of b)) ]}.
Proof.
  intros Ht Ht' Hh Hh' Hx Hx'.
  destruct (temporal_call spec Ht) as (b0 & Hb0 & ->).
  destruct (temporal_call spec' Ht') as (b1 & Hb1 & ->).
  rewrite Hx in Hb0. injection Hb0 as <-.
  rewrite Hx' in Hb1. injection Hb1 as <-.
  rewrite Hh, Hh'. eexists _, _. split; [done|]. split; [done|].
  cbn [src dst]. split; [|done]. by destruct b.
Qed.

(** ** The two public builders *)

(** X18.  Called on a pipe of the other kind, each of the two public builders
    raises [AssertionError]; called on a pipe of its kind, it is what
    [__call__] returns. *)
Theorem public_builders_guard spec :
  get_temporal_pipe_substitution spec
  = (if is_temporal (pipe_kind spec)
     then BaseSubstitutionBuilder.__call__ spec
     else Raise AssertionError)
  ∧ get_spatial_pipe_substitution spec
    = (if is_temporal (pipe_kind spec)
       then Raise AssertionError
       else BaseSubstitutionBuilder.__call__ spec).
Proof.
  unfold BaseSubstitutionBuilder.__call__.
  destruct (is_temporal (pipe_kind spec)) eqn:Ht; split; try done.
  - unfold get_spatial_pipe_substitution, is_spatial. by rewrite Ht.
  - unfold get_temporal_pipe_substitution. by rewrite Ht.
Qed.

End Facts.

(** ** On concrete specifications *)
Import SampleLibrary.

Lemma block_builder_exceptions_witness :
  (kind (mkCubeSpec Port JunctionArms.NONE) = Port
   ∧ TQECException "Cannot build a block for a Port."
     = TQECException "Cannot build a block for a Port.")
  ∨ (kind (mkCubeSpec Port JunctionArms.NONE) = YCube
     ∧ TQECException "Cannot build a block for a Port."
       = NotImplementedError "Y cube is not implemented.").
Proof.
  apply (block_builder_exceptions (mkCubeSpec Port JunctionArms.NONE)).
  reflexivity.
Defined.

Lemma spatial_substitution_layers_witness :
  ∃ s, BaseSubstitutionBuilder.__call__ regular_x_pipe = Ok s
       ∧ ∃ descriptions,
           spatial_descriptions regular_x_pipe = Some descriptions
           ∧ ∀ k r m, (k, (r, m)) ∈ layers_of regular_x_pipe →
               ∃ p q, src s !! k = Some p ∧ dst s !! k = Some q
                      ∧ entries_from (descriptions r m)
                                     (spatial_mappings regular_x_pipe).1 p
                      ∧ entries_from (descriptions r m)
                                     (spatial_mappings regular_x_pipe).2 q.
Proof.
  eexists. split; [reflexivity|].
  exact (spatial_substitution_layers regular_x_pipe _ eq_refl eq_refl).
Defined.

Lemma spatial_substitution_on_facing_borders_witness :
  ∃ s p, BaseSubstitutionBuilder.__call__ regular_x_pipe = Ok s
         ∧ src s !! 0 = Some p
         ∧ is_Some (items (collection p) !! 7)
         ∧ (src s !! 0 = Some p → is_Some (items (collection p) !! 7) →
            7 ∈ get_border_indices (cube_templates regular_x_pipe).1
                  (facing_borders (direction (pipe_kind regular_x_pipe))).1.2)
         ∧ (dst s !! 0 = Some p → is_Some (items (collection p) !! 7) →
            7 ∈ get_border_indices (cube_templates regular_x_pipe).2
                  (facing_borders (direction (pipe_kind regular_x_pipe))).2.2).
Proof.
  eexists _, _. split; [reflexivity|]. split; [reflexivity|].
  split; [by eexists|].
  exact (spatial_substitution_on_facing_borders regular_x_pipe _ 0 7 _
           eq_refl eq_refl).
Defined.

Lemma substitution_builder_exceptions_witness :
  is_spatial (pipe_kind (pipe_between regular_cube junction_cube x_kind)) = true
  ∧ ((AssertionError
      = TQECException
          "Found 2 spatial junctions connected. This is not supported yet."
      ∧ is_spatial_junction
          (cube_specs (pipe_between regular_cube junction_cube x_kind)).1 = true
      ∧ is_spatial_junction
          (cube_specs (pipe_between regular_cube junction_cube x_kind)).2 = true)
     ∨ (AssertionError = AssertionError
        ∧ (is_spatial_junction
             (cube_specs (pipe_between regular_cube junction_cube x_kind)).1 = false
           ∧ is_spatial_junction
               (cube_specs (pipe_between regular_cube junction_cube x_kind)).2 = true
           ∨ is_spatial_junction
               (cube_specs (pipe_between regular_cube junction_cube x_kind)).1 = true
             ∧ x (pipe_kind (pipe_between regular_cube junction_cube x_kind)) = None
             ∧ y (pipe_kind (pipe_between regular_cube junction_cube x_kind)) = None))
     ∨ (∃ k, AssertionError = KeyError k
             ∧ ((spatial_mappings
                   (pipe_between regular_cube junction_cube x_kind)).1 !! k = None
                ∨ (spatial_mappings
                     (pipe_between regular_cube junction_cube x_kind)).2 !! k
                  = None))).
Proof.
  apply (substitution_builder_exceptions
           (pipe_between regular_cube junction_cube x_kind) AssertionError).
  reflexivity.
Defined.

Lemma spatial_missing_index_raises_witness :
  ∃ k', BaseSubstitutionBuilder.__call__ narrow_x_pipe = Raise (KeyError k')
        ∧ (spatial_mappings narrow_x_pipe).1 !! k' = None.
Proof.
  apply (spatial_missing_index_raises narrow_x_pipe
           (get_memory_vertical_boundary_rpng_descriptions
              ZObservableOrientation.HORIZONTAL) 2).
  - reflexivity.
  - reflexivity.
  - reflexivity.
  - by eexists.
  - reflexivity.
Defined.

Lemma temporal_substitution_depends_on_x_witness :
  BaseSubstitutionBuilder.__call__ (pipe_between regular_cube regular_cube temporal_kind)
  = BaseSubstitutionBuilder.__call__
      (pipe_between junction_cube regular_cube other_temporal_kind)
  ∧ ∃ s, BaseSubstitutionBuilder.__call__
           (pipe_between regular_cube regular_cube temporal_kind) = Ok s.
Proof.
  apply (temporal_substitution_depends_on_x
           (pipe_between regular_cube regular_cube temporal_kind)
           (pipe_between junction_cube regular_cube other_temporal_kind));
    reflexivity.
Defined.

Lemma hadamard_destination_is_flipped_memory_witness :
  ∃ s s',
    BaseSubstitutionBuilder.__call__
      (pipe_between regular_cube regular_cube temporal_hadamard_kind) = Ok s
    ∧ BaseSubstitutionBuilder.__call__
        (pipe_between regular_cube regular_cube flipped_temporal_kind) = Ok s'
    ∧ dst s = dst s'
    ∧ src s = {[ -1 := layer_of (get_temporal_hadamard_rpng_descriptions
                                   (orientation_of Basis.Z)) ]}.
Proof.
  apply (hadamard_destination_is_flipped_memory
           (pipe_between regular_cube regular_cube temporal_hadamard_kind)
           (pipe_between regular_cube regular_cube flipped_temporal_kind)
           Basis.Z);
    reflexivity.
Defined.

End BuildersMore.
